(** * dev-docs content backend: route normalisation, lazy initialisation and
      the guarded update of the stored content collection.

    A shallow embedding of the backend module that keeps every markdown page
    of the site in one collection, stored under the key [content] of a
    key-value store, together with the properties its description states.

    Conventions of the embedding.
    - In the content module a JavaScript string is a [string]; a character
      stands for the UTF-16 code unit of the same number (U+0000 to U+00FF).
      The route normaliser is also given over all sequences of UTF-16 code
      units ([Utf16]), with the lower-casing of the engine as a parameter.
    - A plain object used as a dictionary is a [gmap] from the names of its
      own properties to their values; the properties that every such
      object inherits from [Object.prototype] are listed apart
      ([objectPrototypeNames]) and play their part where the code reads or
      assigns a property by name.  [Object.keys] lists the keys in the
      order of [map_to_list]; what is proved about the scan of the keys
      holds for every order of them ([scanRoutes_any_order]).
    - [async] functions are run to completion one after the other: an
      awaited promise is the value it resolves to, a rejected promise is a
      thrown exception ([Thrown]).
    - The calls made to the key-value store are recorded in order, so that
      the sequence of store operations of a function can be stated. *)

From Stdlib Require Import Ascii String NArith Bool.
From stdpp Require Import gmap strings list fin_maps pretty.

Open Scope string_scope.

(** ** JavaScript strings *)

Module JsString.

(** The code units below 256 matched by the regular expression class [\s]:
    TAB, LF, VT, FF, CR, SPACE and NO-BREAK SPACE. *)
Definition isSpace (c : ascii) : bool :=
  let n := N_of_ascii c in
  ((9 <=? n) && (n <=? 13) || (n =? 32) || (n =? 160))%N.

(** [String.prototype.toLowerCase] on one code unit below 256: the letters
    A to Z and U+00C0 to U+00DE, U+00D7 apart, move up by 32. *)
Definition lowerChar (c : ascii) : ascii :=
  let n := N_of_ascii c in
  if ((65 <=? n) && (n <=? 90)
      || (192 <=? n) && (n <=? 222) && negb (n =? 215))%N
  then ascii_of_N (n + 32) else c.

Fixpoint toLowerCase (s : string) : string :=
  match s with
  | EmptyString => EmptyString
  | String c r => String (lowerChar c) (toLowerCase r)
  end.

(** [s.replace(/\s+/g, '-')].  The scan goes from left to right; at a
    whitespace character the greedy match [\s+] starts, a hyphen is
    written, and [skipSpaces] consumes the rest of the match. *)
Fixpoint replaceSpaces (s : string) : string :=
  match s with
  | EmptyString => EmptyString
  | String c r =>
      if isSpace c then String "-" (skipSpaces r)
      else String c (replaceSpaces r)
  end
with skipSpaces (s : string) : string :=
  match s with
  | EmptyString => EmptyString
  | String c r =>
      if isSpace c then skipSpaces r
      else String c (replaceSpaces r)
  end.

(** No character of the string is whitespace. *)
Fixpoint spaceFree (s : string) : bool :=
  match s with
  | EmptyString => true
  | String c r => negb (isSpace c) && spaceFree r
  end.

(** The double quote, for messages that quote a value. *)
Definition dquote : string := String (ascii_of_nat 34) EmptyString.

End JsString.

Import JsString.

(** ** Route normalisation *)

(** [cleanRoute(someRoute)] for a string argument. *)
Definition cleanRoute (someRoute : string) : string :=
  toLowerCase (replaceSpaces someRoute).

(** The normaliser as the description words it: the string is cut into its
    maximal runs of whitespace and of other characters, every whitespace run
    becomes one hyphen, and the result is lower-cased. *)
Module RouteSpec.

(** The maximal runs of a string, each with its class ([true] for
    whitespace). *)
Fixpoint runs (s : string) : list (bool * string) :=
  match s with
  | EmptyString => []
  | String c r =>
      match runs r with
      | (b, g) :: gs =>
          if Bool.eqb b (isSpace c) then (b, String c g) :: gs
          else (isSpace c, String c EmptyString) :: (b, g) :: gs
      | [] => [(isSpace c, String c EmptyString)]
      end
  end.

Definition hyphenate (run : bool * string) : string :=
  if run.1 then "-" else run.2.

Definition render (rs : list (bool * string)) : string :=
  foldr (fun run acc => hyphenate run +:+ acc) EmptyString rs.

Definition normalize (route : string) : string :=
  toLowerCase (render (runs route)).

(** All characters of [s] are of class [b]. *)
Fixpoint allClass (b : bool) (s : string) : bool :=
  match s with
  | EmptyString => true
  | String c r => Bool.eqb (isSpace c) b && allClass b r
  end.

(** A run is well formed when it is not empty and of one class. *)
Definition goodRun (run : bool * string) : bool :=
  negb (String.eqb run.2 EmptyString) && allClass run.1 run.2.

(** Consecutive runs are of different classes, so that none can be
    extended. *)
Fixpoint alternating (rs : list (bool * string)) : bool :=
  match rs with
  | r1 :: ((r2 :: _) as rest) => negb (Bool.eqb r1.1 r2.1) && alternating rest
  | _ => true
  end.

Definition unruns (rs : list (bool * string)) : string :=
  foldr (fun run acc => run.2 +:+ acc) EmptyString rs.

(** The runs left when a leading whitespace run is dropped. *)
Definition afterSpaces (rs : list (bool * string)) : list (bool * string) :=
  match rs with
  | (true, _) :: gs => gs
  | _ => rs
  end.

End RouteSpec.

(** ** Route normalisation over UTF-16

    [cleanRoute] on the strings of the language: sequences of 16-bit code
    units.  The regular expression has no [u] flag, so that it works unit
    by unit.  [toLowerCase] is a function of the engine on whole strings
    (it may change the length of a string, and its result for a unit may
    depend on the units around it); it is a parameter here. *)
Module Utf16.

(** The code units matched by the class [\s]: the white space and line
    terminator code points of the language (TAB, LF, VT, FF, CR, SPACE,
    U+00A0, U+1680, U+2000 to U+200A, U+2028, U+2029, U+202F, U+205F,
    U+3000, U+FEFF). *)
Definition whiteSpaceUnits : list N :=
  [ 9; 10; 11; 12; 13; 32; 160; 5760;
    8192; 8193; 8194; 8195; 8196; 8197; 8198; 8199; 8200; 8201; 8202;
    8232; 8233; 8239; 8287; 12288; 65279 ]%N.

Definition isSpace (u : N) : bool := bool_decide (u ∈ whiteSpaceUnits).

(** The code unit of ['-']. *)
Definition hyphen : N := 45%N.

(** [s.replace(/\s+/g, '-')], as in [JsString.replaceSpaces]. *)
Fixpoint replaceSpaces (s : list N) : list N :=
  match s with
  | [] => []
  | u :: r =>
      if isSpace u then hyphen :: skipSpaces r
      else u :: replaceSpaces r
  end
with skipSpaces (s : list N) : list N :=
  match s with
  | [] => []
  | u :: r =>
      if isSpace u then skipSpaces r
      else u :: replaceSpaces r
  end.

Definition spaceFree (s : list N) : bool :=
  forallb (fun u => negb (isSpace u)) s.

(** [cleanRoute(someRoute)], for the [toLowerCase] of the engine. *)
Definition cleanRoute (toLowerCase : list N -> list N) (someRoute : list N)
  : list N :=
  toLowerCase (replaceSpaces someRoute).

(** The normaliser as the description words it, as in [RouteSpec]: the
    maximal runs of whitespace and of other units, one hyphen for each
    whitespace run, the result lower-cased. *)
Fixpoint runs (s : list N) : list (bool * list N) :=
  match s with
  | [] => []
  | u :: r =>
      match runs r with
      | (b, g) :: gs =>
          if Bool.eqb b (isSpace u) then (b, u :: g) :: gs
          else (isSpace u, [u]) :: (b, g) :: gs
      | [] => [(isSpace u, [u])]
      end
  end.

Definition hyphenate (run : bool * list N) : list N :=
  if run.1 then [hyphen] else run.2.

Definition render (rs : list (bool * list N)) : list N :=
  foldr (fun run acc => hyphenate run ++ acc)%list [] rs.

Definition normalize (toLowerCase : list N -> list N) (route : list N)
  : list N :=
  toLowerCase (render (runs route)).

Definition allClass (b : bool) (s : list N) : bool :=
  forallb (fun u => Bool.eqb (isSpace u) b) s.

Definition goodRun (run : bool * list N) : bool :=
  match run.2 with
  | [] => false
  | _ :: _ => allClass run.1 run.2
  end.

Fixpoint alternating (rs : list (bool * list N)) : bool :=
  match rs with
  | r1 :: ((r2 :: _) as rest) => negb (Bool.eqb r1.1 r2.1) && alternating rest
  | _ => true
  end.

Definition unruns (rs : list (bool * list N)) : list N :=
  foldr (fun run acc => run.2 ++ acc)%list [] rs.

Definition afterSpaces (rs : list (bool * list N)) : list (bool * list N) :=
  match rs with
  | (true, _) :: gs => gs
  | _ => rs
  end.

(** The lower-casing of the engine on the units below 256: the letters A
    to Z and U+00C0 to U+00DE, U+00D7 apart, move up by 32, one unit for one
    unit.  It serves as a sample of [toLowerCase], and is the lower-casing
    that the content module uses on its strings. *)
Definition upperLatin1 (u : N) : Prop :=
  (65 <= u <= 90 \/ (192 <= u <= 222 /\ u <> 215))%N.

#[global] Instance upperLatin1_dec (u : N) : Decision (upperLatin1 u).
Proof. unfold upperLatin1. apply _. Defined.

Definition lowerUnit (u : N) : N :=
  if bool_decide (upperLatin1 u) then (u + 32)%N else u.

Definition lowerLatin1 (s : list N) : list N := lowerUnit <$> s.

(** The code units of a string of the content module. *)
Fixpoint units (s : string) : list N :=
  match s with
  | EmptyString => []
  | String c r => N_of_ascii c :: units r
  end.

End Utf16.

(** ** Values, records and results *)

(** A frontmatter value as the YAML reader hands it over.  Only a string has
    a [replace] method; the other values make [cleanRoute] raise. *)
Inductive jsval : Type :=
| JNull
| JBool (b : bool)
| JNum (n : Z)
| JStr (s : string).

(** What [fm(markdownContent)] returns. *)
Record fm_content : Type := FmContent {
  fm_attributes : gmap string jsval;
  fm_body : string;
  fm_bodyBegin : nat;
  fm_frontmatter : option string
}.

(** What [parseMDLocal] returns and the collection stores: the fields of the
    frontmatter reader's result, the rendered HTML and the raw input. *)
Record content_record : Type := ContentRecord {
  attributes : gmap string jsval;
  body : string;
  bodyBegin : nat;
  frontmatter : option string;
  parsed : string;
  raw : string
}.

(** The stored collection: property name (normalised route) to record. *)
Abbreviation collection := (gmap string content_record).

(** The object [updateContent] returns on failure. *)
Record error_obj : Type := ErrorObj {
  type : string;
  code : string;
  message : string
}.

(** Exceptions: [new Error(message)] of the module itself, and the
    [TypeError] the engine raises on a property access or call that is not
    possible (its message is given in the wording of V8). *)
Inductive exn : Type :=
| Error (msg : string)
| TypeError (msg : string).

Definition exn_message (e : exn) : string :=
  match e with
  | Error msg => msg
  | TypeError msg => msg
  end.

(** How a call ends: with a value, or with an exception (for an [async]
    function: a resolved or a rejected promise). *)
Inductive outcome (A : Type) : Type :=
| Returned (a : A)
| Thrown (e : exn).

Arguments Returned {A} a.
Arguments Thrown {A} e.

Definition is_thrown {A : Type} (o : outcome A) : bool :=
  match o with
  | Returned _ => false
  | Thrown _ => true
  end.

(** ** The key-value store *)

Inductive db_call : Type :=
| CallGet (key : string)
| CallRemove (key : string)
| CallCreate (key : string) (value : collection)
| CallUpdate (key : string).

(** The state of the store: its entries, and the calls received so far,
    oldest first. *)
Record backing_store : Type := BackingStore {
  entries : gmap string collection;
  calls : list db_call
}.

Definition logged (c : db_call) (st : backing_store) : backing_store :=
  {| entries := entries st; calls := calls st ++ [c] |}.

Definition with_entries (es : gmap string collection) (st : backing_store)
  : backing_store :=
  {| entries := es; calls := calls st |}.

(** Computations over the store that may throw. *)
Definition M (A : Type) : Type := backing_store -> backing_store * outcome A.

Definition ret {A : Type} (a : A) : M A := fun st => (st, Returned a).

Definition throw {A : Type} (e : exn) : M A := fun st => (st, Thrown e).

Definition bind {A B : Type} (m : M A) (k : A -> M B) : M B :=
  fun st =>
    match m st with
    | (st', Returned a) => k a st'
    | (st', Thrown e) => (st', Thrown e)
    end.

(** A computation that does not touch the store. *)
Definition lift {A : Type} (o : outcome A) : M A := fun st => (st, o).

Notation "x <- m ;; k" := (bind m (fun x => k))
  (at level 100, m at next level, right associativity).
Notation "m ;;; k" := (bind m (fun _ => k))
  (at level 100, right associativity).

(** Modelled from the spec: [get(key)] of the key-value store (package
    [@binaris/shift-db], which is not part of the sources).  It yields the
    entry at [key], or [undefined] when there is none. *)
Definition get (key : string) : M (option collection) :=
  fun st => (logged (CallGet key) st, Returned (entries st !! key)).

(** Modelled from the spec: [remove(key)] of the key-value store.  It
    deletes the entry at [key] and tells whether there was one. *)
Definition remove (key : string) : M bool :=
  fun st =>
    (with_entries (delete key (entries st)) (logged (CallRemove key) st),
     Returned (bool_decide (is_Some (entries st !! key)))).

(** Modelled from the spec: [create(key, initialValue)] of the key-value
    store.  It writes the initial value when the key is free and tells
    whether it did. *)
Definition create (key : string) (value : collection) : M bool :=
  fun st =>
    match entries st !! key with
    | None =>
        (with_entries (<[key := value]> (entries st))
           (logged (CallCreate key value) st),
         Returned true)
    | Some _ => (logged (CallCreate key value) st, Returned false)
    end.

(** Modelled from the spec: [update(key, mutatorFunction)] of the key-value
    store.  The mutator receives the current value ([undefined] when the
    key is free) and returns the next value, which is committed; when the
    mutator throws, nothing is committed and the exception reaches the
    caller.  Calls are served one at a time, so the mutator runs once.  The
    mutator is a closure: [S] is the type of the variables it captures and
    assigns, threaded through the call. *)
Definition update {S : Type} (key : string)
    (updater : option collection -> S -> S * outcome collection)
    (captured : S) (st : backing_store)
  : backing_store * S * outcome collection :=
  let st1 := logged (CallUpdate key) st in
  match updater (entries st !! key) captured with
  | (captured', Returned next) =>
      (with_entries (<[key := next]> (entries st)) st1, captured',
       Returned next)
  | (captured', Thrown e) => (st1, captured', Thrown e)
  end.

(** ** The content module *)

Definition contentKey : string := "content".

(** [Object.keys(o)]: the own keys of the object.  The engine lists them
    in the order of their creation; the order here is that of
    [map_to_list], and what is stated about the listings and the scans
    below (membership, length, the record found in a well-formed
    collection) does not depend on the order. *)
Definition Object_keys {A : Type} (o : gmap string A) : list string :=
  (map_to_list o).*1.

(** [cleanRoute] called on an arbitrary value: the method call
    [someRoute.replace] raises unless the value is a string. *)
Definition callCleanRoute (someRoute : option jsval) : outcome string :=
  match someRoute with
  | Some (JStr s) => Returned (cleanRoute s)
  | Some JNull =>
      Thrown (TypeError "Cannot read properties of null (reading 'replace')")
  | None =>
      Thrown
        (TypeError "Cannot read properties of undefined (reading 'replace')")
  | Some _ => Thrown (TypeError "someRoute.replace is not a function")
  end.

(** The two error objects built inside the mutator. *)
Definition missingFieldError : error_obj :=
  {| type := "error";
     code := "CONTENT_MISSING_FIELD";
     message := "Content: must contain " +:+ dquote +:+ "route" +:+ dquote
                +:+ " field in frontmatter" |}.

Definition hasChangedError (clean : string) : error_obj :=
  {| type := "error";
     code := "CONTENT_HAS_CHANGED";
     message := "Content at route: " +:+ dquote +:+ clean +:+ dquote
                +:+ " has been modified since reading" |}.

(** The object returned when the mutation failed without a prepared error. *)
Definition unknownError (err : exn) : error_obj :=
  {| type := "error"; code := "UNKNOWN_ERROR"; message := exn_message err |}.

(** The names of the properties that a plain object inherits from
    [Object.prototype].  Read through such a name, an object without an
    own property of that name yields a function or an object, never
    [undefined]. *)
Definition objectPrototypeNames : list string :=
  [ "constructor"; "__defineGetter__"; "__defineSetter__"; "hasOwnProperty";
    "__lookupGetter__"; "__lookupSetter__"; "isPrototypeOf";
    "propertyIsEnumerable"; "toString"; "valueOf"; "__proto__";
    "toLocaleString" ].

Definition inheritedName (name : string) : bool :=
  bool_decide (name ∈ objectPrototypeNames).

(** The test [clientPrevContent !== null &&
    clientPrevContent !== copied[clean].raw].  The right operand is evaluated
    only for a non-null [clientPrevContent].  Without an own property
    [clean], the read [copied[clean]] yields an inherited value, whose [raw]
    is [undefined] and so differs from the string [clientPrevContent], or
    it yields [undefined], and reading [raw] of that raises. *)
Definition contentHasChanged (clientPrevContent : option string)
    (copied : collection) (clean : string) : outcome bool :=
  match clientPrevContent with
  | None => Returned false
  | Some prev =>
      match copied !! clean with
      | Some existing => Returned (negb (String.eqb prev (raw existing)))
      | None =>
          if inheritedName clean then Returned true
          else
            Thrown
              (TypeError
                 "Cannot read properties of undefined (reading 'raw')")
      end
  end.

(** The assignment [copied[clean] = parsed].  It writes the own property
    [clean], but for one name: [__proto__] is inherited as an accessor, so
    that without an own property of that name the assignment replaces the
    prototype of [copied] and gives it no own property. *)
Definition assignRecord (clean : string) (parsed_record : content_record)
    (copied : collection) : collection :=
  match copied !! clean with
  | Some _ => <[clean := parsed_record]> copied
  | None =>
      if String.eqb clean "__proto__" then copied
      else <[clean := parsed_record]> copied
  end.

(** The mutator passed to [update] by [updateContent].  [route], [parsed] and
    [clientPrevContent] are captured and read; [potentialError] is captured
    and assigned.  The store keeps the own properties of the object
    returned. *)
Definition updater (route : option jsval) (parsed_record : content_record)
    (clientPrevContent : option string)
    (prevContent : option collection) (potentialError : option error_obj)
  : option error_obj * outcome collection :=
  let copied : collection := default ∅ prevContent in
  match route with
  | None =>
      (Some missingFieldError, Thrown (Error (message missingFieldError)))
  | Some _ =>
      match callCleanRoute route with
      | Thrown e => (potentialError, Thrown e)
      | Returned clean =>
          match contentHasChanged clientPrevContent copied clean with
          | Thrown e => (potentialError, Thrown e)
          | Returned true =>
              (Some (hasChangedError clean),
               Thrown (Error (message (hasChangedError clean))))
          | Returned false =>
              (potentialError,
               Returned (assignRecord clean parsed_record copied))
          end
      end
  end.

(** The loop of [getContentByRoute] and [loadContentByRoute] over the keys:
    the first record whose declared route normalises like [route], or
    [None] when the loop runs out. *)
Fixpoint scanRoutes (loadedContent : collection) (contentKeys : list string)
    (route : string) : outcome (option content_record) :=
  match contentKeys with
  | [] => Returned None
  | key :: rest =>
      match loadedContent !! key with
      | None =>
          Thrown
            (TypeError
               "Cannot destructure property 'attributes' of undefined")
      | Some entry =>
          match callCleanRoute (attributes entry !! "route") with
          | Thrown e => Thrown e
          | Returned stored =>
              if String.eqb stored (cleanRoute route) then
                Returned (Some entry)
              else scanRoutes loadedContent rest route
          end
      end
  end.

(** ** The invariant of the stored collection *)

(** The record [entry] stored under [key] declares a string route that
    normalises to [key]. *)
Definition recordAtKey (key : string) (entry : content_record) : bool :=
  match attributes entry !! "route" with
  | Some (JStr s) => String.eqb (cleanRoute s) key
  | _ => false
  end.

(** Every record of the collection sits at the key its route normalises
    to. *)
Definition collection_ok (c : collection) : Prop :=
  map_Forall (fun key entry => recordAtKey key entry = true) c.

#[global] Instance collection_ok_dec (c : collection) : Decision (collection_ok c).
Proof. unfold collection_ok. apply _. Defined.

(** The collection a mutation starts from: the stored one, or the empty
    object that [{ ...undefined }] evaluates to. *)
Definition currentCollection (st : backing_store) : collection :=
  default ∅ (entries st !! contentKey).

(** The collection of the store, when there is one, is well formed. *)
Definition store_ok (st : backing_store) : Prop :=
  collection_ok (currentCollection st).

#[global] Instance store_ok_dec (st : backing_store) : Decision (store_ok st).
Proof. unfold store_ok. apply _. Defined.

Section Backend.

(** The collaborators that are imported from elsewhere: the credential
    check of [./authBackend], the frontmatter reader [front-matter] and the
    [unified] pipeline that renders a markdown body to HTML. *)
Variable validateJWT : string -> outcome unit.
Variable fm : string -> outcome fm_content.
Variable process : string -> outcome string.

(** [getContent()]. *)
Definition getContent : M collection :=
  storedContent <- get contentKey ;;
  match storedContent with
  | None =>
      remove contentKey ;;;
      create contentKey ∅ ;;;
      ret ∅
  | Some stored => ret stored
  end.

(** [parseMDLocal(markdownContent)]; it reads no store. *)
Definition parseMDLocal (markdownContent : string) : outcome content_record :=
  match fm markdownContent with
  | Thrown e => Thrown e
  | Returned fmContent =>
      match process (fm_body fmContent) with
      | Thrown e => Thrown e
      | Returned contents =>
          Returned
            {| attributes := fm_attributes fmContent;
               body := fm_body fmContent;
               bodyBegin := fm_bodyBegin fmContent;
               frontmatter := fm_frontmatter fmContent;
               parsed := contents;
               raw := markdownContent |}
      end
  end.

(** [parseMD(jwt, markdownContent)]. *)
Definition parseMD (jwt markdownContent : string) : M content_record :=
  lift (validateJWT jwt) ;;;
  lift (parseMDLocal markdownContent).

(** [updateContent(jwt, content, clientPrevContent = null)].  The result
    [None] is the [undefined] of a call that stored the record. *)
Definition updateContent (jwt content : string)
    (clientPrevContent : option string) : M (option error_obj) :=
  lift (validateJWT jwt) ;;;
  parsed_record <- lift (parseMDLocal content) ;;
  let route := attributes parsed_record !! "route" in
  fun st =>
    match update contentKey
            (updater route parsed_record clientPrevContent) None st with
    | (st', _, Returned _) => (st', Returned None)
    | (st', potentialError, Thrown err) =>
        (st', Returned (Some (default (unknownError err) potentialError)))
    end.

(** [getContentByRoute(jwt, route)]. *)
Definition getContentByRoute (jwt route : string) : M content_record :=
  lift (validateJWT jwt) ;;;
  loadedContent <- getContent ;;
  found <- lift (scanRoutes loadedContent (Object_keys loadedContent) route) ;;
  match found with
  | Some entry => ret entry
  | None =>
      throw (Error ("No content found for route: " +:+ dquote +:+ route
                    +:+ dquote))
  end.

(** [loadContentByRoute(route)]. *)
Definition loadContentByRoute (route : string) : M string :=
  loadedContent <- getContent ;;
  found <- lift (scanRoutes loadedContent (Object_keys loadedContent) route) ;;
  match found with
  | Some entry => ret (parsed entry)
  | None => throw (Error ("No content found for route: " +:+ route))
  end.

(** [getContentMeta()]. *)
Definition getContentMeta : M (list (gmap string jsval)) :=
  loaded <- getContent ;;
  ret (omap (fun key => attributes <$> loaded !! key) (Object_keys loaded)).

(** The states of the store that the exposed operations can produce,
    starting from a store that holds no collection yet. *)
Inductive reachable : backing_store -> Prop :=
| reach_fresh st :
    entries st !! contentKey = None -> reachable st
| reach_updateContent jwt content prev st :
    reachable st -> reachable (updateContent jwt content prev st).1
| reach_getContentByRoute jwt route st :
    reachable st -> reachable (getContentByRoute jwt route st).1
| reach_loadContentByRoute route st :
    reachable st -> reachable (loadContentByRoute route st).1
| reach_getContentMeta st :
    reachable st -> reachable (getContentMeta st).1
| reach_parseMD jwt content st :
    reachable st -> reachable (parseMD jwt content st).1.

End Backend.

(** ** Sample collaborators

    A credential check, a frontmatter reader and a renderer to run the
    module on concrete documents.  The reader understands documents that
    open with a frontmatter block of the single line [route: ...]; any other
    text is a document without frontmatter. *)
Module Sample.

Definition nl : string := String (ascii_of_nat 10) EmptyString.

Definition opening : string := "---" +:+ nl +:+ "route: ".

Definition closing : string := nl +:+ "---" +:+ nl.

Definition validateJWT (jwt : string) : outcome unit :=
  if String.eqb jwt "editor-token" then Returned tt
  else Thrown (Error "invalid token").

Definition fm (content : string) : outcome fm_content :=
  if String.prefix opening content then
    match String.index (String.length opening) closing content with
    | Some i =>
        let declared :=
          String.substring (String.length opening)
            (i - String.length opening) content in
        let start := i + String.length closing in
        Returned
          {| fm_attributes := {["route" := JStr declared]};
             fm_body :=
               String.substring start (String.length content - start)
                 content;
             fm_bodyBegin := 4;
             fm_frontmatter := Some ("route: " +:+ declared) |}
    | None => Thrown (Error "unterminated frontmatter")
    end
  else
    Returned
      {| fm_attributes := ∅;
         fm_body := content;
         fm_bodyBegin := 1;
         fm_frontmatter := None |}.

Definition process (body : string) : outcome string :=
  Returned ("<p>" +:+ body +:+ "</p>").

(** A document that declares [route]. *)
Definition page (route body : string) : string :=
  opening +:+ route +:+ closing +:+ body.

Definition token : string := "editor-token".

Definition emptyStore : backing_store :=
  {| entries := ∅; calls := [] |}.

(** The record [parseMDLocal] makes of [page route body]. *)
Definition pageRecord (route body : string) : content_record :=
  {| attributes := {["route" := JStr route]};
     body := body;
     bodyBegin := 4;
     frontmatter := Some ("route: " +:+ route);
     parsed := "<p>" +:+ body +:+ "</p>";
     raw := page route body |}.

(** Content whose frontmatter block is never closed: the reader throws. *)
Definition broken : string := opening +:+ "nowhere".

(** A document without frontmatter. *)
Definition plain : string := "# Untitled".

(** A store whose collection holds one page. *)
Definition oneStore : backing_store :=
  {| entries :=
       {[contentKey := {["hello-world" := pageRecord "Hello World" "# Hi"]}]};
     calls := [] |}.

End Sample.

(** ** The routing table of the site

    The component [Routes] of [Routes.jsx]: one route element per page of
    the metadata listing, and the catch-all element for unknown paths. *)
Module SiteRoutes.

(** The test [v === true]. *)
Definition isTrue (v : option jsval) : bool :=
  match v with
  | Some (JBool true) => true
  | _ => false
  end.

Inductive component : Type :=
| DynamicContentContainer
| Four0Four.

(** An [AppliedRoute] or [Route] element: its React key, the [exact] flag,
    the paths it serves (none for the catch-all), the component and the
    metadata handed to it. *)
Record route_element : Type := RouteElement {
  route_key : option jsval;
  route_exact : bool;
  route_path : option (list string);
  route_component : component;
  route_props : option (gmap string jsval)
}.

Definition appliedRoute (route : option jsval) (routePaths : list string)
    (meta : gmap string jsval) : route_element :=
  {| route_key := route;
     route_exact := true;
     route_path := Some routePaths;
     route_component := DynamicContentContainer;
     route_props := Some meta |}.

(** [<Route component={Four0Four} />]. *)
Definition catchAll : route_element :=
  {| route_key := None;
     route_exact := false;
     route_path := None;
     route_component := Four0Four;
     route_props := None |}.

Section Engine.

(** The text the engine writes for a number ([Number.prototype.toString]):
    decimal digits for some numbers, exponent notation for others. *)
Variable numberToString : Z -> string.

(** The text a template literal writes for a value. *)
Definition templateString (v : option jsval) : string :=
  match v with
  | None => "undefined"
  | Some JNull => "null"
  | Some (JBool true) => "true"
  | Some (JBool false) => "false"
  | Some (JNum n) => numberToString n
  | Some (JStr s) => s
  end.

(** The callback of [childProps.pages.map].  [defaultFound] is the variable
    of [Routes] it reads and assigns. *)
Definition pageRoute (meta : gmap string jsval) (defaultFound : bool)
  : bool * outcome route_element :=
  let route := meta !! "route" in
  let isDefault := meta !! "isDefault" in
  let routePaths := ["/" +:+ templateString route] in
  if isTrue isDefault then
    if defaultFound then
      (defaultFound, Thrown (Error "Maximum of 1 default page allowed"))
    else
      (true,
       Returned (appliedRoute route
                   (routePaths ++ ["/"; "home"; "/home"])%list meta))
  else (defaultFound, Returned (appliedRoute route routePaths meta)).

(** [Array.prototype.map] with that callback: the pages are visited in
    order, and an exception of the callback ends the visit. *)
Fixpoint mapPages (pages : list (gmap string jsval)) (defaultFound : bool)
  : outcome (list route_element) :=
  match pages with
  | [] => Returned []
  | meta :: rest =>
      match pageRoute meta defaultFound with
      | (_, Thrown e) => Thrown e
      | (defaultFound', Returned element) =>
          match mapPages rest defaultFound' with
          | Thrown e => Thrown e
          | Returned elements => Returned (element :: elements)
          end
      end
  end.

(** [Routes(props)] for [props.childProps.pages = pages]: the children of
    the [Switch] it returns. *)
Definition Routes (pages : list (gmap string jsval))
  : outcome (list route_element) :=
  match mapPages pages false with
  | Thrown e => Thrown e
  | Returned routes => Returned (routes ++ [catchAll])%list
  end.

(** The element of a page when no exception is raised. *)
Definition elementOf (meta : gmap string jsval) : route_element :=
  appliedRoute (meta !! "route")
    (("/" +:+ templateString (meta !! "route"))
       :: (if isTrue (meta !! "isDefault") then ["/"; "home"; "/home"]
           else []))
    meta.

End Engine.

(** The pages marked as default. *)
Definition defaultPages (pages : list (gmap string jsval))
  : list (gmap string jsval) :=
  filter (fun meta => isTrue (meta !! "isDefault") = true) pages.

End SiteRoutes.

(** ** A frontmatter reader with typed scalars

    The sample reader, followed by the reading of plain scalars that a YAML
    reader makes: [null] and the empty scalar are null, [true] and [false]
    are booleans, a run of digits is a number, anything else a string. *)
Module SampleYaml.

Fixpoint digitsValue (s : string) (acc : N) : option N :=
  match s with
  | EmptyString => Some acc
  | String c r =>
      let n := N_of_ascii c in
      if ((48 <=? n) && (n <=? 57))%N
      then digitsValue r (10 * acc + (n - 48))%N
      else None
  end.

Definition scalar (s : string) : jsval :=
  if String.eqb s "" || String.eqb s "null" then JNull
  else if String.eqb s "true" then JBool true
  else if String.eqb s "false" then JBool false
  else match digitsValue s 0 with
       | Some n => JNum (Z.of_N n)
       | None => JStr s
       end.

Definition typed (v : jsval) : jsval :=
  match v with
  | JStr s => scalar s
  | _ => v
  end.

Definition fm (content : string) : outcome fm_content :=
  match Sample.fm content with
  | Thrown e => Thrown e
  | Returned fmContent =>
      Returned
        {| fm_attributes := typed <$> fm_attributes fmContent;
           fm_body := fm_body fmContent;
           fm_bodyBegin := fm_bodyBegin fmContent;
           fm_frontmatter := fm_frontmatter fmContent |}
  end.

(** The record [parseMDLocal] makes of a page that declares the route
    [2019]. *)
Definition yearRecord : content_record :=
  {| attributes := {["route" := JNum 2019]};
     body := "# Year";
     bodyBegin := 4;
     frontmatter := Some "route: 2019";
     parsed := "<p># Year</p>";
     raw := Sample.page "2019" "# Year" |}.

(** A metadata listing with one default page. *)
Definition pages : list (gmap string jsval) :=
  [ {["route" := JStr "intro"; "isDefault" := JBool true]};
    {["route" := JStr "api"]} ].

End SampleYaml.

(** ** Checks of the sample collaborators *)

Example sample_parse :
  parseMDLocal Sample.fm Sample.process (Sample.page "Hello World" "# Hi")
  = Returned (Sample.pageRecord "Hello World" "# Hi").
Proof. vm_compute. reflexivity. Qed.

Example sample_clean : cleanRoute "Hello  World" = "hello-world".
Proof. reflexivity. Qed.

(** ** Route normalisation: properties *)

Module JsStringFacts.

(** Case analysis over the 256 code units. *)
Ltac each_char c :=
  destruct c as [b0 b1 b2 b3 b4 b5 b6 b7];
  destruct b0, b1, b2, b3, b4, b5, b6, b7.

(** Lower-casing neither makes nor removes whitespace. *)
Lemma isSpace_lowerChar c : isSpace (lowerChar c) = isSpace c.
Proof. each_char c; reflexivity. Qed.

Lemma lowerChar_idem c : lowerChar (lowerChar c) = lowerChar c.
Proof. each_char c; reflexivity. Qed.

Lemma toLowerCase_idem s : toLowerCase (toLowerCase s) = toLowerCase s.
Proof.
  induction s as [|c s IH]; simpl; [reflexivity|].
  by rewrite lowerChar_idem, IH.
Qed.

Lemma spaceFree_toLowerCase s : spaceFree (toLowerCase s) = spaceFree s.
Proof.
  induction s as [|c s IH]; simpl; [reflexivity|].
  by rewrite isSpace_lowerChar, IH.
Qed.

(** The output of the replacement holds no whitespace, whether the scan is
    inside a match or not. *)
Lemma spaceFree_replace s :
  spaceFree (replaceSpaces s) = true /\ spaceFree (skipSpaces s) = true.
Proof.
  induction s as [|c s [IH1 IH2]]; simpl; [done|].
  destruct (isSpace c) eqn:Hc; simpl.
  - by rewrite IH2.
  - by rewrite Hc, IH1.
Qed.

(** Without whitespace there is nothing to replace. *)
Lemma replaceSpaces_spaceFree s : spaceFree s = true -> replaceSpaces s = s.
Proof.
  induction s as [|c s IH]; simpl; [done|].
  intros [Hc Hs]%andb_true_iff.
  apply negb_true_iff in Hc. rewrite Hc. by rewrite IH.
Qed.

Lemma spaceFree_cleanRoute r : spaceFree (cleanRoute r) = true.
Proof.
  unfold cleanRoute. rewrite spaceFree_toLowerCase.
  apply spaceFree_replace.
Qed.

Lemma cleanRoute_idem r : cleanRoute (cleanRoute r) = cleanRoute r.
Proof.
  unfold cleanRoute at 1.
  rewrite (replaceSpaces_spaceFree _ (spaceFree_cleanRoute r)).
  unfold cleanRoute. apply toLowerCase_idem.
Qed.

End JsStringFacts.

Module RouteSpecFacts.
Import RouteSpec JsStringFacts.

Lemma bool_eqb_comm a b : Bool.eqb a b = Bool.eqb b a.
Proof. by destruct a, b. Qed.

(** The runs are a decomposition of the string. *)
Lemma unruns_runs s : unruns (runs s) = s.
Proof.
  induction s as [|c s IH]; simpl; [reflexivity|].
  destruct (runs s) as [|[b g] gs]; simpl in *.
  - by rewrite <- IH.
  - destruct (Bool.eqb b (isSpace c)); simpl; by rewrite <- IH.
Qed.

(** Each run is non-empty and of one class. *)
Lemma runs_good s : forallb goodRun (runs s) = true.
Proof.
  induction s as [|c s IH]; simpl; [reflexivity|].
  destruct (runs s) as [|[b g] gs]; simpl in *.
  - unfold goodRun; simpl. by rewrite Bool.eqb_reflx.
  - apply andb_true_iff in IH as [Hg Hgs].
    destruct (Bool.eqb b (isSpace c)) eqn:Hb; simpl.
    + rewrite Hgs, andb_true_r. unfold goodRun in *; simpl in *.
      apply andb_true_iff in Hg as [_ Hg]. rewrite Hg, andb_true_r.
      by rewrite bool_eqb_comm.
    + rewrite Hg, Hgs. unfold goodRun; simpl.
      by rewrite Bool.eqb_reflx.
Qed.

(** Neighbouring runs differ in class: every run is maximal. *)
Lemma runs_alternating s : alternating (runs s) = true.
Proof.
  induction s as [|c s IH]; simpl; [reflexivity|].
  destruct (runs s) as [|[b g] gs]; [reflexivity|].
  destruct (Bool.eqb b (isSpace c)) eqn:Hb.
  - exact IH.
  - change (negb (Bool.eqb (isSpace c) b) && alternating ((b, g) :: gs)
            = true).
    by rewrite IH, bool_eqb_comm, Hb.
Qed.

(** The scan of the regular expression writes what the description says,
    run by run. *)
Lemma replaceSpaces_runs s :
  replaceSpaces s = render (runs s)
  /\ skipSpaces s = render (afterSpaces (runs s)).
Proof.
  induction s as [|c s [IH1 IH2]]; simpl; [done|].
  destruct (isSpace c) eqn:Hc.
  - rewrite IH2.
    destruct (runs s) as [|[[] g] gs]; simpl; by rewrite ?Hc.
  - rewrite IH1.
    destruct (runs s) as [|[[] g] gs]; simpl; by rewrite ?Hc.
Qed.

Lemma cleanRoute_normalize r : cleanRoute r = normalize r.
Proof.
  unfold cleanRoute, normalize. by rewrite (proj1 (replaceSpaces_runs r)).
Qed.

End RouteSpecFacts.

(** On the strings of the content module (code units below 256), the
    route normaliser of the code is the normaliser of the description: it
    writes one hyphen for each maximal run of whitespace (the decomposition
    [RouteSpec.runs] rebuilds the input, its runs are non-empty, of one
    class, and no two neighbours share a class) and lower-cases the result;
    and normalising twice is normalising once. *)
Lemma cleanRoute_runs_idempotent (r : string) :
  cleanRoute r = RouteSpec.normalize r
  /\ RouteSpec.unruns (RouteSpec.runs r) = r
  /\ forallb RouteSpec.goodRun (RouteSpec.runs r) = true
  /\ RouteSpec.alternating (RouteSpec.runs r) = true
  /\ cleanRoute (cleanRoute r) = cleanRoute r.
Proof.
  repeat split.
  - apply RouteSpecFacts.cleanRoute_normalize.
  - apply RouteSpecFacts.unruns_runs.
  - apply RouteSpecFacts.runs_good.
  - apply RouteSpecFacts.runs_alternating.
  - apply JsStringFacts.cleanRoute_idem.
Qed.

(** ** The stored collection: scanning and the invariant *)

Section CollectionFacts.

Implicit Types (c : collection) (st : backing_store).

Lemma recordAtKey_route key entry :
  recordAtKey key entry = true ->
  callCleanRoute (attributes entry !! "route") = Returned key.
Proof.
  unfold recordAtKey.
  destruct (attributes entry !! "route") as [[| | |s]|]; try done.
  intros Heq%String.eqb_eq. simpl. by rewrite Heq.
Qed.

Lemma collection_ok_empty : collection_ok ∅.
Proof. apply map_Forall_empty. Qed.

Lemma collection_ok_insert c key entry :
  collection_ok c -> recordAtKey key entry = true ->
  collection_ok (<[key := entry]> c).
Proof. intros Hc He. by apply map_Forall_insert_2. Qed.

(** The assignment writes the own property unless the name is
    [__proto__] and the object has no own property of that name. *)
Lemma assignRecord_own clean parsed_record c :
  clean <> "__proto__" \/ is_Some (c !! clean) ->
  assignRecord clean parsed_record c = <[clean := parsed_record]> c.
Proof.
  unfold assignRecord. intros [Hname|[existing Hown]].
  - destruct (c !! clean); [done|].
    apply String.eqb_neq in Hname. by rewrite Hname.
  - by rewrite Hown.
Qed.

Lemma assignRecord_proto parsed_record c :
  c !! "__proto__" = None -> assignRecord "__proto__" parsed_record c = c.
Proof. intros Hnone. unfold assignRecord. by rewrite Hnone. Qed.

Lemma assignRecord_cases clean parsed_record c :
  assignRecord clean parsed_record c = <[clean := parsed_record]> c
  \/ (assignRecord clean parsed_record c = c
      /\ clean = "__proto__" /\ c !! clean = None).
Proof.
  unfold assignRecord. destruct (c !! clean) eqn:Hown; [by left|].
  destruct (String.eqb clean "__proto__") eqn:Hname; [|by left].
  apply String.eqb_eq in Hname. by right.
Qed.

Lemma assignRecord_lookup_ne clean parsed_record c key :
  key <> clean -> assignRecord clean parsed_record c !! key = c !! key.
Proof.
  intros Hne.
  destruct (assignRecord_cases clean parsed_record c) as [->|[-> _]];
    [by rewrite lookup_insert_ne | done].
Qed.

(** Whether the assignment writes depends on the object only through the
    own property of that name. *)
Lemma assignRecord_congr clean parsed_record c c' :
  c' !! clean = c !! clean ->
  (assignRecord clean parsed_record c = <[clean := parsed_record]> c
   /\ assignRecord clean parsed_record c' = <[clean := parsed_record]> c')
  \/ (assignRecord clean parsed_record c = c
      /\ assignRecord clean parsed_record c' = c').
Proof.
  intros Hsame. unfold assignRecord. rewrite Hsame.
  destruct (c !! clean); [by left|].
  destruct (String.eqb clean "__proto__"); [by right | by left].
Qed.

(** Two assignments in a row: at one name the second value stays, as if
    the first assignment had not been made; at two names the order does
    not matter to the properties of the object. *)
Lemma assignRecord_assignRecord clean1 clean2 parsed1 parsed2 c :
  assignRecord clean2 parsed2 (assignRecord clean1 parsed1 c)
  = if decide (clean1 = clean2) then assignRecord clean2 parsed2 c
    else assignRecord clean1 parsed1 (assignRecord clean2 parsed2 c).
Proof.
  destruct (decide (clean1 = clean2)) as [<-|Hne].
  - destruct (assignRecord_congr clean1 parsed1 c c eq_refl)
      as [[E1 _]|[E1 _]]; rewrite E1; [|done].
    rewrite (assignRecord_own clean1 parsed2 (<[clean1 := parsed1]> c))
      by (right; rewrite lookup_insert_eq; eauto).
    rewrite insert_insert_eq. symmetry. revert E1. unfold assignRecord.
    destruct (c !! clean1) eqn:Hown; [done|].
    destruct (String.eqb clean1 "__proto__"); [|done].
    intros E1. apply (f_equal (fun m => m !! clean1)) in E1.
    rewrite lookup_insert_eq in E1. congruence.
  - destruct (assignRecord_congr clean2 parsed2 c
                (assignRecord clean1 parsed1 c)) as [[E2 ->]|[E2 ->]];
      [by apply assignRecord_lookup_ne | |];
      destruct (assignRecord_congr clean1 parsed1 c
                  (assignRecord clean2 parsed2 c)) as [[E1 ->]|[E1 ->]];
      try (by apply assignRecord_lookup_ne); rewrite ?E1, ?E2; try done.
    by apply insert_insert_ne.
Qed.

Lemma assignRecord_keeps clean parsed_record c key :
  is_Some (c !! key) -> is_Some (assignRecord clean parsed_record c !! key).
Proof.
  intros Hkey.
  destruct (assignRecord_cases clean parsed_record c) as [->|[-> _]];
    [|done].
  destruct (decide (clean = key)) as [<-|Hne].
  - rewrite lookup_insert_eq. eauto.
  - by rewrite lookup_insert_ne.
Qed.

Lemma assignRecord_lookup clean parsed_record c key entry :
  assignRecord clean parsed_record c !! key = Some entry ->
  entry = parsed_record \/ c !! key = Some entry.
Proof.
  destruct (assignRecord_cases clean parsed_record c) as [->|[-> _]];
    [|by right].
  destruct (decide (clean = key)) as [<-|Hne].
  - rewrite lookup_insert_eq. intros [= <-]. by left.
  - rewrite lookup_insert_ne by done. by right.
Qed.

Lemma assignRecord_ok clean parsed_record c :
  collection_ok c -> recordAtKey clean parsed_record = true ->
  collection_ok (assignRecord clean parsed_record c).
Proof.
  intros Hc He.
  destruct (assignRecord_cases clean parsed_record c) as [->|[-> _]];
    [by apply collection_ok_insert | done].
Qed.

Lemma Object_keys_defined {A : Type} (o : gmap string A) key :
  key ∈ Object_keys o <-> is_Some (o !! key).
Proof.
  unfold Object_keys. rewrite list_elem_of_fmap. split.
  - intros [[k v] [-> Hin]]. apply elem_of_map_to_list in Hin. eauto.
  - intros [v Hv]. exists (key, v). split; [done|].
    by apply elem_of_map_to_list.
Qed.

(** In a well-formed collection the loop finds the record stored at the
    normalised route when that key is among the keys visited, and nothing
    otherwise: the order of the visit plays no part. *)
Lemma scanRoutes_ok c keys route :
  collection_ok c ->
  (forall key, key ∈ keys -> is_Some (c !! key)) ->
  scanRoutes c keys route
  = Returned (if decide (cleanRoute route ∈ keys)
              then c !! cleanRoute route else None).
Proof.
  intros Hok. induction keys as [|key rest IH]; intros Hdef;
    cbn [scanRoutes].
  - by rewrite decide_False by apply not_elem_of_nil.
  - destruct (Hdef key) as [entry Hentry]; [left|].
    rewrite Hentry.
    rewrite (recordAtKey_route key entry) by exact (Hok key entry Hentry).
    destruct (String.eqb key (cleanRoute route)) eqn:Heq.
    + apply String.eqb_eq in Heq. subst key.
      rewrite decide_True by left. by rewrite Hentry.
    + apply String.eqb_neq in Heq.
      rewrite IH by (intros k Hk; apply Hdef; by right).
      destruct (decide (cleanRoute route ∈ rest)) as [Hin|Hnin].
      * rewrite decide_True; [done | by right].
      * rewrite decide_False; [done|].
        intros [Hhd|Htl]%elem_of_cons; congruence.
Qed.

Lemma scanRoutes_any_order c keys route :
  collection_ok c ->
  keys ≡ₚ Object_keys c ->
  scanRoutes c keys route = Returned (c !! cleanRoute route).
Proof.
  intros Hok Hperm.
  rewrite scanRoutes_ok; [|done|].
  - destruct (decide (cleanRoute route ∈ keys)) as [Hin|Hnin]; [done|].
    destruct (c !! cleanRoute route) as [entry|] eqn:Hentry; [|done].
    exfalso. apply Hnin. rewrite Hperm. apply Object_keys_defined. eauto.
  - intros key Hkey. apply Object_keys_defined. by rewrite <- Hperm.
Qed.

Lemma scanRoutes_Object_keys c route :
  collection_ok c ->
  scanRoutes c (Object_keys c) route = Returned (c !! cleanRoute route).
Proof. intros Hok. by apply scanRoutes_any_order. Qed.

(** ** [getContent] *)

Lemma getContent_absent st :
  entries st !! contentKey = None ->
  getContent st
  = ({| entries := <[contentKey := ∅]> (entries st);
        calls := calls st ++ [CallGet contentKey; CallRemove contentKey;
                              CallCreate contentKey ∅] |},
     Returned ∅).
Proof.
  intros Habs. unfold getContent, bind, get, remove, create, ret. simpl.
  rewrite Habs. simpl. rewrite lookup_delete_eq. simpl.
  rewrite (delete_id _ _ Habs).
  unfold with_entries, logged. simpl.
  by rewrite <- !app_assoc.
Qed.

Lemma getContent_present st c :
  entries st !! contentKey = Some c ->
  getContent st = (logged (CallGet contentKey) st, Returned c).
Proof.
  intros Hc. unfold getContent, bind, get, ret. simpl. by rewrite Hc.
Qed.

(** [getContent] returns the collection of the state it leaves. *)
Lemma getContent_result st :
  exists st', getContent st = (st', Returned (currentCollection st'))
              /\ currentCollection st' = currentCollection st
              /\ forall key, key <> contentKey ->
                   entries st' !! key = entries st !! key.
Proof.
  destruct (entries st !! contentKey) as [c|] eqn:Hc.
  - exists (logged (CallGet contentKey) st).
    rewrite (getContent_present st c Hc).
    unfold currentCollection. simpl. by rewrite Hc.
  - exists (getContent st).1. rewrite (getContent_absent st Hc).
    unfold currentCollection. cbn [fst entries].
    rewrite lookup_insert_eq, Hc. repeat split; [done..|].
    intros key Hkey. by rewrite lookup_insert_ne.
Qed.

Lemma getContent_store_ok st :
  store_ok st -> store_ok (getContent st).1.
Proof.
  unfold store_ok. intros Hok.
  destruct (getContent_result st) as (st' & Hget & Hcur & _).
  rewrite Hget. cbn [fst]. by rewrite Hcur.
Qed.

End CollectionFacts.

(** ** The mutator and [updateContent] *)

Section BackendFacts.

Context (validateJWT : string -> outcome unit)
        (fm : string -> outcome fm_content)
        (process : string -> outcome string).

Local Abbreviation parseLocal := (parseMDLocal fm process).
Local Abbreviation updateC := (updateContent validateJWT fm process).
Local Abbreviation getByRoute := (getContentByRoute validateJWT).

Implicit Types (c : collection) (st : backing_store).

(** The ways the mutator can end: it returns the copy with the new record
    at the normalised string route and assigns nothing, or it throws,
    having assigned nothing or one of the two prepared errors. *)
Lemma updater_cases route parsed_record prev prevContent :
  (exists R, route = Some (JStr R)
     /\ updater route parsed_record prev prevContent None
        = (None, Returned (assignRecord (cleanRoute R) parsed_record
                             (default ∅ prevContent))))
  \/ (exists potentialError err,
        updater route parsed_record prev prevContent None
        = (potentialError, Thrown err)
        /\ (potentialError = None
            \/ potentialError = Some missingFieldError
            \/ exists clean, potentialError = Some (hasChangedError clean))).
Proof.
  unfold updater. destruct route as [[| | |R]|]; simpl;
    try (right; eauto 10; fail).
  destruct (contentHasChanged prev (default ∅ prevContent) (cleanRoute R))
    as [[]|err]; [right; eauto 10 | left; eauto | right; eauto 10].
Qed.

(** What [updateContent] does once the credential is accepted and the
    content is parsed: one [update] whose mutator decides everything. *)
Lemma updateContent_run jwt content prev st parsed_record :
  validateJWT jwt = Returned tt ->
  parseLocal content = Returned parsed_record ->
  updateC jwt content prev st
  = match updater (attributes parsed_record !! "route") parsed_record prev
            (entries st !! contentKey) None with
    | (_, Returned next) =>
        (with_entries (<[contentKey := next]> (entries st))
           (logged (CallUpdate contentKey) st),
         Returned None)
    | (potentialError, Thrown err) =>
        (logged (CallUpdate contentKey) st,
         Returned (Some (default (unknownError err) potentialError)))
    end.
Proof.
  intros Hjwt Hparse. unfold updateContent, bind, lift, update.
  rewrite Hjwt, Hparse.
  by destruct (updater _ _ _ _ _) as [potentialError [next|err]].
Qed.

(** A call that reports no error has stored the parsed record at the
    normalised string route of the content, in a copy of the collection it
    found. *)
Lemma updateContent_success jwt content prev st st' :
  updateC jwt content prev st = (st', Returned None) ->
  exists parsed_record R,
    validateJWT jwt = Returned tt
    /\ parseLocal content = Returned parsed_record
    /\ attributes parsed_record !! "route" = Some (JStr R)
    /\ st' = with_entries
               (<[contentKey := assignRecord (cleanRoute R) parsed_record
                                  (currentCollection st)]> (entries st))
               (logged (CallUpdate contentKey) st).
Proof.
  unfold updateContent, bind, lift, update.
  destruct (validateJWT jwt) as [[]|e] eqn:Hjwt; [|done].
  destruct (parseLocal content) as [parsed_record|e] eqn:Hparse; [|done].
  destruct (updater_cases (attributes parsed_record !! "route")
              parsed_record prev (entries st !! contentKey))
    as [(R & Hroute & Hrun)|(pe & err & Hrun & _)]; rewrite Hrun.
  - intros [= <-]. by exists parsed_record, R.
  - done.
Qed.

(** Whatever the call, the entries are left as they were or replaced as a
    successful call replaces them. *)
Lemma updateContent_entries jwt content prev st :
  entries (updateC jwt content prev st).1 = entries st
  \/ (updateC jwt content prev st).2 = Returned None.
Proof.
  unfold updateContent, bind, lift, update.
  destruct (validateJWT jwt) as [[]|e]; [|by left].
  destruct (parseLocal content) as [parsed_record|e]; [|by left].
  destruct (updater _ _ _ _ _) as [pe [next|err]]; [by right | by left].
Qed.

Lemma recordAtKey_cleanRoute parsed_record R :
  attributes parsed_record !! "route" = Some (JStr R) ->
  recordAtKey (cleanRoute R) parsed_record = true.
Proof. intros Hroute. unfold recordAtKey. rewrite Hroute. apply String.eqb_refl. Qed.

Lemma updateContent_store_ok jwt content prev st :
  store_ok st -> store_ok (updateC jwt content prev st).1.
Proof.
  intros Hok.
  destruct (updateContent_entries jwt content prev st) as [Hsame|Hdone].
  - unfold store_ok, currentCollection. rewrite Hsame. apply Hok.
  - destruct (updateC jwt content prev st) as [st' res] eqn:Hrun.
    simpl in Hdone. subst res.
    apply updateContent_success in Hrun
      as (parsed_record & R & _ & _ & Hroute & ->).
    unfold store_ok at 1, currentCollection at 1.
    cbn [fst with_entries entries]. rewrite lookup_insert_eq.
    apply assignRecord_ok; [exact Hok|].
    by apply recordAtKey_cleanRoute.
Qed.

(** The collection after an update that reported no error, for a parsed
    record and a string route that are known. *)
Lemma updateContent_success_current
    jwt content prev parsed_record R st st' :
  parseLocal content = Returned parsed_record ->
  attributes parsed_record !! "route" = Some (JStr R) ->
  updateC jwt content prev st = (st', Returned None) ->
  currentCollection st'
  = assignRecord (cleanRoute R) parsed_record (currentCollection st)
  /\ entries st' !! contentKey = Some (currentCollection st').
Proof.
  intros Hparse Hroute Hrun.
  apply updateContent_success in Hrun
    as (parsed' & R0 & _ & Hparse' & Hroute' & Hst').
  assert (parsed' = parsed_record) as -> by congruence.
  assert (R0 = R) as -> by congruence.
  assert (Hstored : entries st' !! contentKey
                    = Some (assignRecord (cleanRoute R) parsed_record
                              (currentCollection st))).
  { rewrite Hst'. cbn [with_entries entries]. apply lookup_insert_eq. }
  unfold currentCollection at 1 3. by rewrite Hstored.
Qed.

(** A lookup in a well-formed store: the record at the normalised route,
    or the exception of the loop that ran out. *)
Lemma getContentByRoute_ok jwt route st :
  validateJWT jwt = Returned tt ->
  store_ok st ->
  getByRoute jwt route st
  = ((getContent st).1,
     match currentCollection st !! cleanRoute route with
     | Some entry => Returned entry
     | None =>
         Thrown (Error ("No content found for route: " +:+ dquote +:+ route
                        +:+ dquote))
     end).
Proof.
  intros Hjwt Hok. unfold getContentByRoute, bind, lift. rewrite Hjwt.
  destruct (getContent_result st) as (st' & Hget & Hcur & _).
  rewrite Hget. cbn [fst].
  rewrite scanRoutes_Object_keys
    by (rewrite Hcur; exact Hok).
  rewrite Hcur. by destruct (currentCollection st !! cleanRoute route).
Qed.

Lemma loadContentByRoute_ok route st :
  store_ok st ->
  loadContentByRoute route st
  = ((getContent st).1,
     match currentCollection st !! cleanRoute route with
     | Some entry => Returned (parsed entry)
     | None => Thrown (Error ("No content found for route: " +:+ route))
     end).
Proof.
  intros Hok. unfold loadContentByRoute, bind, lift.
  destruct (getContent_result st) as (st' & Hget & Hcur & _).
  rewrite Hget. cbn [fst].
  rewrite scanRoutes_Object_keys
    by (rewrite Hcur; exact Hok).
  rewrite Hcur. by destruct (currentCollection st !! cleanRoute route).
Qed.

(** The read operations change the store only through [getContent]. *)
Lemma getContentByRoute_state jwt route st :
  (getByRoute jwt route st).1 = st
  \/ (getByRoute jwt route st).1 = (getContent st).1.
Proof.
  unfold getContentByRoute, bind, lift.
  destruct (validateJWT jwt) as [[]|e]; [|by left].
  destruct (getContent st) as [st' [loaded|e]]; [|by right].
  destruct (scanRoutes _ _ _) as [[entry|]|e]; by right.
Qed.

Lemma loadContentByRoute_state route st :
  (loadContentByRoute route st).1 = (getContent st).1.
Proof.
  unfold loadContentByRoute, bind, lift.
  destruct (getContent st) as [st' [loaded|e]]; [|done].
  by destruct (scanRoutes _ _ _) as [[entry|]|e].
Qed.

Lemma getContentMeta_state st :
  (getContentMeta st).1 = (getContent st).1.
Proof.
  unfold getContentMeta, bind, ret.
  by destruct (getContent st) as [st' [loaded|e]].
Qed.

Lemma parseMD_state jwt content st :
  (parseMD validateJWT fm process jwt content st).1 = st.
Proof.
  unfold parseMD, bind, lift.
  by destruct (validateJWT jwt) as [[]|e].
Qed.

(** The invariant holds in every state the exposed operations can reach
    from a store without a collection. *)
Lemma reachable_store_ok st :
  reachable validateJWT fm process st -> store_ok st.
Proof.
  induction 1 as [st Habs|jwt content prev st _ IH|jwt route st _ IH
                 |route st _ IH|st _ IH|jwt content st _ IH].
  - unfold store_ok, currentCollection. rewrite Habs.
    apply collection_ok_empty.
  - by apply updateContent_store_ok.
  - destruct (getContentByRoute_state jwt route st) as [->| ->];
      [done | by apply getContent_store_ok].
  - rewrite loadContentByRoute_state. by apply getContent_store_ok.
  - rewrite getContentMeta_state. by apply getContent_store_ok.
  - by rewrite parseMD_state.
Qed.

End BackendFacts.

(** ** The stated properties of the update and of the lookups *)

Section Claims.

Context (validateJWT : string -> outcome unit)
        (fm : string -> outcome fm_content)
        (process : string -> outcome string).

Local Abbreviation parseLocal := (parseMDLocal fm process).
Local Abbreviation updateC := (updateContent validateJWT fm process).
Local Abbreviation getByRoute := (getContentByRoute validateJWT).

Implicit Types (c : collection) (st : backing_store).

Lemma parseMDLocal_raw content parsed_record :
  parseLocal content = Returned parsed_record -> raw parsed_record = content.
Proof.
  unfold parseMDLocal. destruct (fm content) as [fmContent|e]; [|done].
  destruct (process (fm_body fmContent)) as [contents|e]; [|done].
  by intros [= <-].
Qed.

Lemma currentCollection_stored st c :
  entries st !! contentKey = Some c -> currentCollection st = c.
Proof. intros Hc. unfold currentCollection. by rewrite Hc. Qed.

(** The guard against overwriting: a given expected text that is not the raw
    text of the record at the key stops the mutation. *)
Lemma updateContent_changed jwt content parsed_record R' B c existing st :
  validateJWT jwt = Returned tt ->
  parseLocal content = Returned parsed_record ->
  attributes parsed_record !! "route" = Some (JStr R') ->
  entries st !! contentKey = Some c ->
  c !! cleanRoute R' = Some existing ->
  B <> raw existing ->
  updateC jwt content (Some B) st
  = (logged (CallUpdate contentKey) st,
     Returned (Some (hasChangedError (cleanRoute R')))).
Proof.
  intros Hjwt Hparse Hroute Hc Hexisting Hneq.
  rewrite (updateContent_run _ _ _ _ _ _ _ _ Hjwt Hparse).
  rewrite Hroute, Hc. unfold updater. cbn [callCleanRoute default from_option id].
  unfold contentHasChanged. rewrite Hexisting.
  apply String.eqb_neq in Hneq. by rewrite Hneq.
Qed.

(** C1.  When the collection holds a record with raw text [A] at the key
    that route [R] normalises to, a call of [updateContent] whose content
    declares a route normalising to the same key and whose expected previous
    text [B] is given and differs from [A] returns the error object with
    code CONTENT_HAS_CHANGED, and the entries of the store, the record at
    that key among them, are what they were. *)
Theorem updateContent_stale_expectation
    jwt content parsed_record R' R A B c existing st :
  validateJWT jwt = Returned tt ->
  parseLocal content = Returned parsed_record ->
  attributes parsed_record !! "route" = Some (JStr R') ->
  cleanRoute R' = cleanRoute R ->
  entries st !! contentKey = Some c ->
  c !! cleanRoute R = Some existing ->
  raw existing = A ->
  B <> A ->
  exists st',
    updateC jwt content (Some B) st
    = (st', Returned (Some (hasChangedError (cleanRoute R))))
    /\ code (hasChangedError (cleanRoute R)) = "CONTENT_HAS_CHANGED"
    /\ entries st' = entries st
    /\ currentCollection st' !! cleanRoute R = Some existing.
Proof.
  intros Hjwt Hparse Hroute Hkey Hc Hexisting Hraw Hneq.
  exists (logged (CallUpdate contentKey) st).
  rewrite <- Hkey in Hexisting |- *. rewrite <- Hraw in Hneq.
  rewrite (updateContent_changed _ _ _ _ _ _ _ _ Hjwt Hparse Hroute Hc
             Hexisting Hneq).
  do 3 (split; [done|]).
  unfold currentCollection. cbn [logged entries]. by rewrite Hc.
Qed.

(** C2.  When the parsed frontmatter of the content has no [route] key,
    [updateContent], whatever the expected previous text, returns the error
    object with code CONTENT_MISSING_FIELD and leaves the entries of the
    store as they were.  The test is made by the mutator, inside the single
    [update] call of the operation, for any collection it is handed. *)
Theorem updateContent_missing_route jwt content parsed_record prev st :
  validateJWT jwt = Returned tt ->
  parseLocal content = Returned parsed_record ->
  attributes parsed_record !! "route" = None ->
  exists st',
    updateC jwt content prev st = (st', Returned (Some missingFieldError))
    /\ code missingFieldError = "CONTENT_MISSING_FIELD"
    /\ entries st' = entries st
    /\ calls st' = (calls st ++ [CallUpdate contentKey])%list
    /\ forall prevContent potentialError,
         updater None parsed_record prev prevContent potentialError
         = (Some missingFieldError, Thrown (Error (message missingFieldError))).
Proof.
  intros Hjwt Hparse Hroute.
  exists (logged (CallUpdate contentKey) st).
  rewrite (updateContent_run _ _ _ _ _ _ _ _ Hjwt Hparse), Hroute.
  by cbn [updater default from_option id].
Qed.

(** Where the key is a name inherited from [Object.prototype], the read
    of the missing record yields an object without [raw], and the guard
    answers "changed". *)
Lemma updateContent_inherited_name_changed
    jwt content parsed_record R B st :
  validateJWT jwt = Returned tt ->
  parseLocal content = Returned parsed_record ->
  attributes parsed_record !! "route" = Some (JStr R) ->
  currentCollection st !! cleanRoute R = None ->
  inheritedName (cleanRoute R) = true ->
  updateC jwt content (Some B) st
  = (logged (CallUpdate contentKey) st,
     Returned (Some (hasChangedError (cleanRoute R)))).
Proof.
  intros Hjwt Hparse Hroute Hnone Hinherited.
  rewrite (updateContent_run _ _ _ _ _ _ _ _ Hjwt Hparse), Hroute.
  unfold updater. cbn [callCleanRoute]. unfold contentHasChanged.
  fold (currentCollection st). by rewrite Hnone, Hinherited.
Qed.

(** C3 (what the code does).  With an expected previous text given and no
    record at the key the route normalises to, the key not being a name
    that objects inherit ([constructor], [__proto__]), the mutator fails
    while reading [raw] of the missing record, before any error object is
    prepared: the call returns the error object with code UNKNOWN_ERROR,
    not CONTENT_HAS_CHANGED.  The entries of the store are what they
    were. *)
Theorem updateContent_no_record_unknown_error
    jwt content parsed_record R B st :
  validateJWT jwt = Returned tt ->
  parseLocal content = Returned parsed_record ->
  attributes parsed_record !! "route" = Some (JStr R) ->
  currentCollection st !! cleanRoute R = None ->
  inheritedName (cleanRoute R) = false ->
  exists st' err,
    updateC jwt content (Some B) st = (st', Returned (Some (unknownError err)))
    /\ err = TypeError "Cannot read properties of undefined (reading 'raw')"
    /\ code (unknownError err) = "UNKNOWN_ERROR"
    /\ code (unknownError err) <> "CONTENT_HAS_CHANGED"
    /\ entries st' = entries st.
Proof.
  intros Hjwt Hparse Hroute Hnone Hown.
  exists (logged (CallUpdate contentKey) st). eexists.
  rewrite (updateContent_run _ _ _ _ _ _ _ _ Hjwt Hparse), Hroute.
  unfold updater. cbn [callCleanRoute]. unfold contentHasChanged.
  fold (currentCollection st). rewrite Hnone, Hown.
  cbn [default from_option id].
  repeat split; done.
Qed.

(** C4 (amended).  With no expected previous text ([null]), content that
    parses and declares a string route whose normalised form is not
    [__proto__] is stored whatever the store holds: the test of the
    previous state answers "unchanged" without reading the collection, the
    call reports no error, and the collection afterwards is the former one
    with the parsed record put, whole, at the normalised route. *)
Theorem updateContent_null_expectation jwt content parsed_record R st :
  validateJWT jwt = Returned tt ->
  parseLocal content = Returned parsed_record ->
  attributes parsed_record !! "route" = Some (JStr R) ->
  cleanRoute R <> "__proto__" ->
  exists st',
    updateC jwt content None st = (st', Returned None)
    /\ entries st'
       = <[contentKey := <[cleanRoute R := parsed_record]>
                           (currentCollection st)]> (entries st)
    /\ currentCollection st' !! cleanRoute R = Some parsed_record
    /\ forall copied clean, contentHasChanged None copied clean = Returned false.
Proof.
  intros Hjwt Hparse Hroute Hname.
  eexists. rewrite (updateContent_run _ _ _ _ _ _ _ _ Hjwt Hparse), Hroute.
  unfold updater. cbn [callCleanRoute contentHasChanged].
  rewrite (assignRecord_own _ _ _ (or_introl Hname)).
  fold (currentCollection st).
  split; [reflexivity|]. cbn [with_entries entries].
  split; [reflexivity|]. split; [|done].
  unfold currentCollection at 1. cbn [with_entries entries].
  rewrite lookup_insert_eq. cbn [default from_option id].
  apply lookup_insert_eq.
Qed.

(** C6 (what the code does).  When the route of the content normalises to
    [__proto__] and the collection has no own property of that name, the
    assignment in the mutator replaces the prototype of the copy and adds
    no record: the call with no expected previous text reports no error,
    the collection is what it was, and in a well-formed store
    [getContentByRoute] with any [q] that normalises like the route throws
    the [No content found] error instead of returning the record. *)
Theorem updateContent_proto_route_not_stored
    jwt jwt' content parsed_record R q st :
  store_ok st ->
  validateJWT jwt = Returned tt ->
  validateJWT jwt' = Returned tt ->
  parseLocal content = Returned parsed_record ->
  attributes parsed_record !! "route" = Some (JStr R) ->
  cleanRoute R = "__proto__" ->
  currentCollection st !! "__proto__" = None ->
  cleanRoute q = cleanRoute R ->
  exists st' st'',
    updateC jwt content None st = (st', Returned None)
    /\ currentCollection st' = currentCollection st
    /\ getByRoute jwt' q st'
       = (st'', Thrown (Error ("No content found for route: " +:+ dquote
                               +:+ q +:+ dquote))).
Proof.
  intros Hok Hjwt Hjwt' Hparse Hroute Hname Hnone Hq.
  destruct (updateC jwt content None st) as [st' res] eqn:Hrun.
  assert (Hres : res = Returned None).
  { revert Hrun.
    rewrite (updateContent_run _ _ _ _ _ _ _ _ Hjwt Hparse), Hroute.
    unfold updater. cbn [callCleanRoute contentHasChanged].
    by intros [= _ <-]. }
  subst res.
  assert (Hok' : store_ok st').
  { change st' with (st', @Returned (option error_obj) None).1.
    rewrite <- Hrun. by apply updateContent_store_ok. }
  destruct (updateContent_success_current _ _ _ _ _ _ _ _ _ _ Hparse Hroute
              Hrun)
    as [Hcur _].
  rewrite Hname, (assignRecord_proto _ _ Hnone) in Hcur.
  exists st', (getContent st').1. do 2 (split; [done|]).
  rewrite (getContentByRoute_ok _ _ _ _ Hjwt' Hok').
  by rewrite Hq, Hname, Hcur, Hnone.
Qed.

(** X19.  In a well-formed store (every record at the key its route
    normalises to, as in every state reached from an empty store), after a
    call of [updateContent] that reported no error for content declaring a
    route [R] whose normalised form is not [__proto__], [getContentByRoute]
    with any [q] that normalises like [R] returns the record that was
    stored, and changes no entry. *)
Theorem updateContent_getContentByRoute_roundtrip
    jwt jwt' content prev parsed_record R q st st' :
  store_ok st ->
  parseLocal content = Returned parsed_record ->
  attributes parsed_record !! "route" = Some (JStr R) ->
  cleanRoute R <> "__proto__" ->
  updateC jwt content prev st = (st', Returned None) ->
  validateJWT jwt' = Returned tt ->
  cleanRoute q = cleanRoute R ->
  exists st'',
    getByRoute jwt' q st' = (st'', Returned parsed_record)
    /\ entries st'' = entries st'
    /\ currentCollection st' !! cleanRoute R = Some parsed_record.
Proof.
  intros Hok Hparse Hroute Hname Hrun Hjwt' Hq.
  assert (Hok' : store_ok st').
  { change st' with (st', @Returned (option error_obj) None).1.
    rewrite <- Hrun. by apply updateContent_store_ok. }
  destruct (updateContent_success_current _ _ _ _ _ _ _ _ _ _ Hparse Hroute
              Hrun)
    as [Hcur Hstored].
  rewrite (assignRecord_own _ _ _ (or_introl Hname)) in Hcur.
  assert (Hat : currentCollection st' !! cleanRoute R = Some parsed_record).
  { rewrite Hcur. apply lookup_insert_eq. }
  exists (logged (CallGet contentKey) st').
  rewrite (getContentByRoute_ok _ _ _ _ Hjwt' Hok').
  rewrite (getContent_present _ _ Hstored). cbn [fst].
  by rewrite Hq, Hat.
Qed.

(** C7 (amended).  Once the credential is accepted and the content parsed,
    [updateContent] never throws: it reports no error, or returns an object
    of type "error" whose code is CONTENT_MISSING_FIELD, CONTENT_HAS_CHANGED
    or UNKNOWN_ERROR.  A failure of the parser is thrown on to the caller as
    it is, and [getContentByRoute], in a well-formed store with no record at
    the normalised route, throws an [Error] with the message
    [No content found for route: "route"]. *)
Theorem errors_returned_or_thrown :
  (forall jwt content prev st parsed_record,
      validateJWT jwt = Returned tt ->
      parseLocal content = Returned parsed_record ->
      exists st',
        updateC jwt content prev st = (st', Returned None)
        \/ exists e,
             updateC jwt content prev st = (st', Returned (Some e))
             /\ type e = "error"
             /\ (code e = "CONTENT_MISSING_FIELD"
                 \/ code e = "CONTENT_HAS_CHANGED"
                 \/ code e = "UNKNOWN_ERROR"))
  /\ (forall jwt content prev st err,
        validateJWT jwt = Returned tt ->
        parseLocal content = Thrown err ->
        updateC jwt content prev st = (st, Thrown err))
  /\ (forall jwt route st,
        validateJWT jwt = Returned tt ->
        store_ok st ->
        currentCollection st !! cleanRoute route = None ->
        exists st',
          getByRoute jwt route st
          = (st', Thrown (Error ("No content found for route: " +:+ dquote
                                 +:+ route +:+ dquote)))).
Proof.
  split; [|split].
  - intros jwt content prev st parsed_record Hjwt Hparse.
    rewrite (updateContent_run _ _ _ _ _ _ _ _ Hjwt Hparse).
    destruct (updater_cases (attributes parsed_record !! "route")
                parsed_record prev (entries st !! contentKey))
      as [(R & _ & ->)|(pe & err & -> & Hpe)].
    + eexists. by left.
    + eexists. right. eexists. split; [reflexivity|].
      destruct Hpe as [->|[->|[clean ->]]]; cbn; auto.
  - intros jwt content prev st err Hjwt Hparse.
    unfold updateContent, bind, lift. by rewrite Hjwt, Hparse.
  - intros jwt route st Hjwt Hok Hnone.
    exists (getContent st).1.
    by rewrite (getContentByRoute_ok _ _ _ _ Hjwt Hok), Hnone.
Qed.

Lemma getContentMeta_empty st st' :
  getContent st = (st', Returned ∅) -> getContentMeta st = (st', Returned []).
Proof.
  intros Hget. unfold getContentMeta, bind, ret. rewrite Hget.
  unfold Object_keys. by rewrite map_to_list_empty.
Qed.

(** C8.  When the store has no entry at the content key, [getContent]
    makes three calls, in this order: the [get] that finds nothing, a
    [remove] of the key, and one [create] of the empty collection; it
    returns the empty collection, and the store then holds it at the key.
    The metadata listing and both lookups leave the store in that same
    state, and the listing is empty, then and when asked again.  When an
    entry exists, [getContent] returns it after the single [get], and the
    entries are untouched. *)
Theorem getContent_lazy_init st :
  (entries st !! contentKey = None ->
   exists st',
     getContent st = (st', Returned ∅)
     /\ calls st' = (calls st ++ [CallGet contentKey; CallRemove contentKey;
                                  CallCreate contentKey ∅])%list
     /\ entries st' = <[contentKey := ∅]> (entries st)
     /\ getContentMeta st = (st', Returned [])
     /\ (forall route, (loadContentByRoute route st).1 = st')
     /\ (forall jwt route,
           validateJWT jwt = Returned tt -> (getByRoute jwt route st).1 = st')
     /\ (getContentMeta st').2 = Returned []
     /\ entries (getContentMeta st').1 = entries st')
  /\ (forall c,
        entries st !! contentKey = Some c ->
        exists st',
          getContent st = (st', Returned c)
          /\ calls st' = (calls st ++ [CallGet contentKey])%list
          /\ entries st' = entries st).
Proof.
  split.
  - intros Habs. eexists. split; [exact (getContent_absent st Habs)|].
    pose proof (getContent_absent st Habs) as Hget.
    do 2 (split; [reflexivity|]).
    split; [by apply getContentMeta_empty|].
    split.
    { intros route. by rewrite loadContentByRoute_state, Hget. }
    split.
    { intros jwt route Hjwt. rewrite getContentByRoute_ok; [|done|].
      - by rewrite Hget.
      - unfold store_ok, currentCollection. rewrite Habs.
        apply collection_ok_empty. }
    match goal with
    | |- context [getContentMeta ?s] =>
        assert (Hnext : getContent s
                        = (logged (CallGet contentKey) s, Returned ∅))
    end.
    { apply getContent_present. cbn [entries]. apply lookup_insert_eq. }
    by rewrite (getContentMeta_empty _ _ Hnext).
  - intros c Hc. exists (logged (CallGet contentKey) st).
    by rewrite (getContent_present st c Hc).
Qed.

(** C9 (amended).  When the collection holds a record with raw text [A] at
    the key of route [R], a call of [updateContent] with content [C]
    declaring that route and with expected previous text [A] reports no
    error and puts the parsed record at the key; provided [C] is not [A], a
    second call with the same content and the same expected text returns the
    error object with code CONTENT_HAS_CHANGED and changes no entry. *)
Theorem updateContent_twice
    jwt content parsed_record R' R A c existing st :
  validateJWT jwt = Returned tt ->
  parseLocal content = Returned parsed_record ->
  attributes parsed_record !! "route" = Some (JStr R') ->
  cleanRoute R' = cleanRoute R ->
  entries st !! contentKey = Some c ->
  c !! cleanRoute R = Some existing ->
  raw existing = A ->
  content <> A ->
  exists st1 st2,
    updateC jwt content (Some A) st = (st1, Returned None)
    /\ entries st1 !! contentKey = Some (<[cleanRoute R := parsed_record]> c)
    /\ updateC jwt content (Some A) st1
       = (st2, Returned (Some (hasChangedError (cleanRoute R))))
    /\ code (hasChangedError (cleanRoute R)) = "CONTENT_HAS_CHANGED"
    /\ entries st2 = entries st1.
Proof.
  intros Hjwt Hparse Hroute Hkey Hc Hexisting Hraw Hneq.
  assert (Hfirst :
    updateC jwt content (Some A) st
    = (with_entries (<[contentKey := <[cleanRoute R := parsed_record]> c]>
                       (entries st))
         (logged (CallUpdate contentKey) st),
       Returned None)).
  { rewrite (updateContent_run _ _ _ _ _ _ _ _ Hjwt Hparse).
    rewrite Hroute, Hc. unfold updater.
    cbn [callCleanRoute default from_option id].
    rewrite Hkey. unfold contentHasChanged. rewrite Hexisting, Hraw.
    rewrite String.eqb_refl. cbn [negb].
    by rewrite (assignRecord_own _ _ _ (or_intror (mk_is_Some _ _ Hexisting))). }
  eexists. eexists. rewrite Hfirst. split; [reflexivity|].
  cbn [with_entries entries]. split; [apply lookup_insert_eq|].
  rewrite <- Hkey.
  rewrite (updateContent_changed jwt content parsed_record R' A
             (<[cleanRoute R' := parsed_record]> c) parsed_record).
  - done.
  - done.
  - done.
  - done.
  - cbn [entries]. apply lookup_insert_eq.
  - apply lookup_insert_eq.
  - rewrite (parseMDLocal_raw _ _ Hparse). congruence.
Qed.

(** C10.  A call of [updateContent] that reports no error has parsed the
    content and found a string route [r] in it; the collection afterwards
    holds, at every key other than the normalised [r], exactly what the
    collection held before; the other entries of the store are
    untouched. *)
Theorem updateContent_frame jwt content prev st st' :
  updateC jwt content prev st = (st', Returned None) ->
  exists parsed_record r,
    parseLocal content = Returned parsed_record
    /\ attributes parsed_record !! "route" = Some (JStr r)
    /\ (forall key, key <> cleanRoute r ->
          currentCollection st' !! key = currentCollection st !! key)
    /\ (forall k, k <> contentKey -> entries st' !! k = entries st !! k).
Proof.
  intros (parsed_record & r & _ & Hparse & Hroute & Hst')%updateContent_success.
  exists parsed_record, r. do 2 (split; [done|]).
  assert (Hstored : entries st' !! contentKey
                    = Some (assignRecord (cleanRoute r) parsed_record
                              (currentCollection st))).
  { rewrite Hst'. cbn [with_entries entries]. apply lookup_insert_eq. }
  rewrite (currentCollection_stored _ _ Hstored).
  split.
  - intros key Hkey. by apply assignRecord_lookup_ne.
  - intros k Hk. rewrite Hst'. cbn [with_entries entries].
    by rewrite lookup_insert_ne.
Qed.

End Claims.

(** ** The properties at concrete documents *)

Module Runs.
Import Sample.

Abbreviation update_content := (updateContent validateJWT fm process).
Abbreviation hello := (pageRecord "Hello World" "# Hi").
Abbreviation edited := (pageRecord "hello world" "# Edited").

Ltac run := vm_compute; reflexivity.

Lemma oneStore_ok : store_ok oneStore.
Proof. apply (bool_decide_unpack _). vm_compute. exact I. Defined.

Lemma emptyStore_ok : store_ok emptyStore.
Proof. apply (bool_decide_unpack _). vm_compute. exact I. Defined.

(** C1 at a stored page and an edit that expects a text never stored. *)
Lemma updateContent_stale_expectation_witness :
  exists st',
    update_content token (page "hello world" "# Edited") (Some "stale text")
      oneStore
    = (st', Returned (Some (hasChangedError (cleanRoute "Hello World"))))
    /\ code (hasChangedError (cleanRoute "Hello World")) = "CONTENT_HAS_CHANGED"
    /\ entries st' = entries oneStore
    /\ currentCollection st' !! cleanRoute "Hello World" = Some hello.
Proof.
  apply (updateContent_stale_expectation validateJWT fm process
           token (page "hello world" "# Edited") edited
           "hello world" "Hello World" (page "Hello World" "# Hi")
           "stale text" {["hello-world" := hello]} hello oneStore);
    [run | run | run | run | run | run | run | discriminate].
Defined.

(** C2 at a document without frontmatter. *)
Lemma updateContent_missing_route_witness :
  exists st',
    update_content token plain (Some "anything") oneStore
    = (st', Returned (Some missingFieldError))
    /\ code missingFieldError = "CONTENT_MISSING_FIELD"
    /\ entries st' = entries oneStore
    /\ calls st' = (calls oneStore ++ [CallUpdate contentKey])%list
    /\ forall prevContent potentialError,
         updater None
           {| attributes := ∅; body := plain; bodyBegin := 1;
              frontmatter := None; parsed := "<p># Untitled</p>";
              raw := plain |}
           (Some "anything") prevContent potentialError
         = (Some missingFieldError, Thrown (Error (message missingFieldError))).
Proof.
  apply (updateContent_missing_route validateJWT fm process token plain);
    [run | run | run].
Defined.

(** C3 at the first save of a page by a client that sends an expected
    text: the store holds no record at [about]. *)
Lemma updateContent_no_record_unknown_error_witness :
  exists st' err,
    update_content token (page "About" "# About") (Some "draft") oneStore
    = (st', Returned (Some (unknownError err)))
    /\ err = TypeError "Cannot read properties of undefined (reading 'raw')"
    /\ code (unknownError err) = "UNKNOWN_ERROR"
    /\ code (unknownError err) <> "CONTENT_HAS_CHANGED"
    /\ entries st' = entries oneStore.
Proof.
  apply (updateContent_no_record_unknown_error validateJWT fm process
           token (page "About" "# About") (pageRecord "About" "# About")
           "About" "draft" oneStore);
    [run | run | run | run | run].
Defined.

(** C4 (amended) at an overwrite of a stored page. *)
Lemma updateContent_null_expectation_witness :
  exists st',
    update_content token (page "hello world" "# Edited") None oneStore
    = (st', Returned None)
    /\ entries st'
       = <[contentKey := <[cleanRoute "hello world" := edited]>
                           (currentCollection oneStore)]> (entries oneStore)
    /\ currentCollection st' !! cleanRoute "hello world" = Some edited
    /\ forall copied clean, contentHasChanged None copied clean = Returned false.
Proof.
  apply (updateContent_null_expectation validateJWT fm process
           token (page "hello world" "# Edited") edited "hello world" oneStore);
    [run | run | run | vm_compute; discriminate].
Defined.

(** C4 as stated fails in two ways.  A declared route that is not a string
    (here the number 2019) is refused with UNKNOWN_ERROR; and for the route
    [__proto__] the call reports no error although no record is put at the
    key. *)
Lemma updateContent_null_not_stored :
  (let result :=
     updateContent validateJWT SampleYaml.fm process token
       (page "2019" "# Year") None oneStore in
   attributes SampleYaml.yearRecord !! "route" = Some (JNum 2019)
   /\ parseMDLocal SampleYaml.fm process (page "2019" "# Year")
      = Returned SampleYaml.yearRecord
   /\ result.2
      = Returned
          (Some (unknownError
                   (TypeError "someRoute.replace is not a function")))
   /\ result.2 <> Returned None
   /\ entries result.1 = entries oneStore)
  /\ (let result :=
        update_content token (page "__proto__" "# Hidden") None oneStore in
      parseMDLocal fm process (page "__proto__" "# Hidden")
      = Returned (pageRecord "__proto__" "# Hidden")
      /\ result.2 = Returned None
      /\ currentCollection result.1 !! cleanRoute "__proto__" = None
      /\ currentCollection result.1 = currentCollection oneStore).
Proof.
  cbv zeta. split.
  - do 3 (split; [run|]). split; [|run].
    intros Hresult. vm_compute in Hresult. discriminate Hresult.
  - repeat split; run.
Qed.

(** C6 at a page whose route is [__proto__]: saved without error, then
    not found. *)
Lemma updateContent_proto_route_not_stored_witness :
  exists st' st'',
    update_content token (page "__proto__" "# Hidden") None oneStore
    = (st', Returned None)
    /\ currentCollection st' = currentCollection oneStore
    /\ getContentByRoute validateJWT token "__PROTO__" st'
       = (st'', Thrown (Error ("No content found for route: " +:+ dquote
                               +:+ "__PROTO__" +:+ dquote))).
Proof.
  apply (updateContent_proto_route_not_stored validateJWT fm process
           token token (page "__proto__" "# Hidden")
           (pageRecord "__proto__" "# Hidden") "__proto__" "__PROTO__"
           oneStore);
    [exact oneStore_ok | run | run | run | run | run | run | run].
Defined.

(** X19 at the two spellings of a route. *)
Lemma updateContent_getContentByRoute_roundtrip_witness :
  exists st'',
    getContentByRoute validateJWT token "Hello World"
      (update_content token (page "hello world" "# Edited") None oneStore).1
    = (st'', Returned edited)
    /\ entries st''
       = entries
           (update_content token (page "hello world" "# Edited") None
              oneStore).1
    /\ currentCollection
         (update_content token (page "hello world" "# Edited") None oneStore).1
       !! cleanRoute "hello world" = Some edited.
Proof.
  apply (updateContent_getContentByRoute_roundtrip validateJWT fm process
           token token (page "hello world" "# Edited") None edited
           "hello world" "Hello World" oneStore);
    [exact oneStore_ok | run | run | vm_compute; discriminate
    | run | run | run].
Defined.

(** C7 (amended) at an edit, at broken content and at a route that no page
    declares. *)
Lemma errors_returned_or_thrown_witness :
  (exists st',
      update_content token plain None oneStore = (st', Returned None)
      \/ exists e,
           update_content token plain None oneStore = (st', Returned (Some e))
           /\ type e = "error"
           /\ (code e = "CONTENT_MISSING_FIELD"
               \/ code e = "CONTENT_HAS_CHANGED"
               \/ code e = "UNKNOWN_ERROR"))
  /\ update_content token broken None oneStore
     = (oneStore, Thrown (Error "unterminated frontmatter"))
  /\ exists st',
       getContentByRoute validateJWT token "missing" oneStore
       = (st', Thrown (Error ("No content found for route: " +:+ dquote
                              +:+ "missing" +:+ dquote))).
Proof.
  destruct (errors_returned_or_thrown validateJWT fm process)
    as (Hreturned & Hparse & Hlookup).
  split; [|split].
  - apply (Hreturned token plain None oneStore
             {| attributes := ∅; body := plain; bodyBegin := 1;
                frontmatter := None; parsed := "<p># Untitled</p>";
                raw := plain |}); run.
  - apply (Hparse token broken None oneStore); run.
  - apply (Hlookup token "missing" oneStore); [run | exact oneStore_ok | run].
Defined.

(** C7 as stated fails: a lookup that matches no record ends in a thrown
    exception, not in a returned value. *)
Lemma getContentByRoute_no_match_throws :
  scanRoutes (currentCollection oneStore)
    (Object_keys (currentCollection oneStore)) "missing" = Returned None
  /\ (getContentByRoute validateJWT token "missing" oneStore).2
     = Thrown (Error ("No content found for route: " +:+ dquote +:+ "missing"
                      +:+ dquote))
  /\ is_thrown (getContentByRoute validateJWT token "missing" oneStore).2
     = true
  /\ ~ exists entry,
         (getContentByRoute validateJWT token "missing" oneStore).2
         = Returned entry.
Proof.
  do 3 (split; [run|]).
  intros [entry Hentry]. vm_compute in Hentry. discriminate Hentry.
Qed.

(** C8 at a store without a collection and at a store with one. *)
Lemma getContent_lazy_init_witness :
  (exists st',
      getContent emptyStore = (st', Returned ∅)
      /\ calls st' = (calls emptyStore
                      ++ [CallGet contentKey; CallRemove contentKey;
                          CallCreate contentKey ∅])%list
      /\ entries st' = <[contentKey := ∅]> (entries emptyStore)
      /\ getContentMeta emptyStore = (st', Returned [])
      /\ (forall route, (loadContentByRoute route emptyStore).1 = st')
      /\ (forall jwt route,
            validateJWT jwt = Returned tt ->
            (getContentByRoute validateJWT jwt route emptyStore).1 = st')
      /\ (getContentMeta st').2 = Returned []
      /\ entries (getContentMeta st').1 = entries st')
  /\ exists st',
       getContent oneStore = (st', Returned {["hello-world" := hello]})
       /\ calls st' = (calls oneStore ++ [CallGet contentKey])%list
       /\ entries st' = entries oneStore.
Proof.
  split.
  - apply (proj1 (getContent_lazy_init validateJWT emptyStore)). run.
  - apply (proj2 (getContent_lazy_init validateJWT oneStore)). run.
Defined.

(** C9 (amended) at an edit of a stored page, sent twice. *)
Lemma updateContent_twice_witness :
  exists st1 st2,
    update_content token (page "hello world" "# Edited")
      (Some (page "Hello World" "# Hi")) oneStore
    = (st1, Returned None)
    /\ entries st1 !! contentKey
       = Some (<[cleanRoute "Hello World" := edited]> {["hello-world" := hello]})
    /\ update_content token (page "hello world" "# Edited")
         (Some (page "Hello World" "# Hi")) st1
       = (st2, Returned (Some (hasChangedError (cleanRoute "Hello World"))))
    /\ code (hasChangedError (cleanRoute "Hello World")) = "CONTENT_HAS_CHANGED"
    /\ entries st2 = entries st1.
Proof.
  apply (updateContent_twice validateJWT fm process
           token (page "hello world" "# Edited") edited
           "hello world" "Hello World" (page "Hello World" "# Hi")
           {["hello-world" := hello]} hello oneStore);
    [run | run | run | run | run | run | run | vm_compute; discriminate].
Defined.

(** C9 as stated fails when the content sent is the text already stored:
    the expected text is still the stored one after the first call, and the
    second call reports no error either. *)
Lemma updateContent_twice_same_content :
  let A := page "Hello World" "# Hi" in
  let first := update_content token A (Some A) oneStore in
  let second := update_content token A (Some A) first.1 in
  raw <$> currentCollection oneStore !! cleanRoute "Hello World" = Some A
  /\ first.2 = Returned None
  /\ currentCollection first.1 !! cleanRoute "Hello World" = Some hello
  /\ second.2 = Returned None
  /\ second.2 <> Returned (Some (hasChangedError (cleanRoute "Hello World"))).
Proof.
  cbv zeta. do 4 (split; [run|]).
  intros Hsecond. vm_compute in Hsecond. discriminate Hsecond.
Qed.

(** C10 at the first page stored next to an existing one. *)
Lemma updateContent_frame_witness :
  exists parsed_record r,
    parseMDLocal fm process (page "About" "# About") = Returned parsed_record
    /\ attributes parsed_record !! "route" = Some (JStr r)
    /\ (forall key, key <> cleanRoute r ->
          currentCollection
            (update_content token (page "About" "# About") None oneStore).1
          !! key = currentCollection oneStore !! key)
    /\ (forall k, k <> contentKey ->
          entries
            (update_content token (page "About" "# About") None oneStore).1
          !! k = entries oneStore !! k).
Proof.
  apply (updateContent_frame validateJWT fm process
           token (page "About" "# About") None oneStore).
  run.
Defined.

End Runs.

(** ** Route normalisation over UTF-16: properties *)

Module Utf16Facts.
Import Utf16.

Lemma bool_eqb_swap a b : Bool.eqb a b = Bool.eqb b a.
Proof. by destruct a, b. Qed.

Lemma hyphen_not_space : isSpace hyphen = false.
Proof. reflexivity. Qed.

(** The output of the replacement holds no whitespace, whether the scan is
    inside a match or not. *)
Lemma spaceFree_replaceSpaces s :
  spaceFree (replaceSpaces s) = true /\ spaceFree (skipSpaces s) = true.
Proof.
  induction s as [|u s [IH1 IH2]]; [done|].
  cbn [replaceSpaces skipSpaces].
  destruct (isSpace u) eqn:Hu; unfold spaceFree in *; cbn [forallb].
  - by rewrite hyphen_not_space, IH2.
  - by rewrite Hu, IH1.
Qed.

(** Without whitespace there is nothing to replace. *)
Lemma replaceSpaces16_spaceFree s : spaceFree s = true -> replaceSpaces s = s.
Proof.
  induction s as [|u s IH]; [done|].
  unfold spaceFree. cbn [forallb replaceSpaces].
  intros [Hu Hs]%andb_true_iff. apply negb_true_iff in Hu.
  rewrite Hu. by rewrite IH.
Qed.

Lemma unruns16_runs s : unruns (runs s) = s.
Proof.
  induction s as [|u s IH]; [done|]. cbn [runs].
  destruct (runs s) as [|[b g] gs]; cbn in *.
  - by rewrite <- IH.
  - destruct (Bool.eqb b (isSpace u)); cbn; by rewrite <- IH.
Qed.

Lemma runs16_good s : forallb goodRun (runs s) = true.
Proof.
  induction s as [|u s IH]; [done|]. cbn [runs].
  destruct (runs s) as [|[b g] gs].
  - unfold goodRun, allClass. cbn. by rewrite Bool.eqb_reflx.
  - cbn [forallb] in IH. apply andb_true_iff in IH as [Hg Hgs].
    destruct (Bool.eqb b (isSpace u)) eqn:Hb; cbn [forallb].
    + rewrite Hgs, andb_true_r. unfold goodRun, allClass in *.
      cbn [fst snd forallb] in *. rewrite bool_eqb_swap, Hb. cbn [andb].
      by destruct g.
    + rewrite Hg, Hgs. unfold goodRun, allClass. cbn.
      by rewrite Bool.eqb_reflx.
Qed.

Lemma runs16_alternating s : alternating (runs s) = true.
Proof.
  induction s as [|u s IH]; [done|]. cbn [runs].
  destruct (runs s) as [|[b g] gs]; [done|].
  destruct (Bool.eqb b (isSpace u)) eqn:Hb.
  - exact IH.
  - change (negb (Bool.eqb (isSpace u) b) && alternating ((b, g) :: gs)
            = true).
    by rewrite IH, bool_eqb_swap, Hb.
Qed.

(** The scan of the regular expression writes what the description says,
    run by run. *)
Lemma replaceSpaces16_runs s :
  replaceSpaces s = render (runs s)
  /\ skipSpaces s = render (afterSpaces (runs s)).
Proof.
  induction s as [|u s [IH1 IH2]]; [done|].
  cbn [replaceSpaces skipSpaces runs].
  destruct (isSpace u) eqn:Hu.
  - rewrite IH2.
    destruct (runs s) as [|[[] g] gs]; cbn; by rewrite ?Hu.
  - rewrite IH1.
    destruct (runs s) as [|[[] g] gs]; cbn; by rewrite ?Hu.
Qed.

Section Engine.

(** The lower-casing of the engine, and the two facts about it that the
    normaliser rests on: a lower-cased string is lower-cased to itself, and
    lower-casing puts no whitespace into a string that has none. *)
Variable toLowerCase : list N -> list N.
Hypothesis toLowerCase_idem :
  forall s, toLowerCase (toLowerCase s) = toLowerCase s.
Hypothesis toLowerCase_spaceFree :
  forall s, spaceFree s = true -> spaceFree (toLowerCase s) = true.

Lemma spaceFree_cleanRoute16 r : spaceFree (cleanRoute toLowerCase r) = true.
Proof.
  unfold cleanRoute. apply toLowerCase_spaceFree, spaceFree_replaceSpaces.
Qed.

Lemma cleanRoute16_idem r :
  cleanRoute toLowerCase (cleanRoute toLowerCase r) = cleanRoute toLowerCase r.
Proof.
  unfold cleanRoute at 1.
  rewrite (replaceSpaces16_spaceFree _ (spaceFree_cleanRoute16 r)).
  unfold cleanRoute. apply toLowerCase_idem.
Qed.

(** C5.  For every string of UTF-16 code units, the route normaliser of the
    code is the normaliser of the description: it writes one hyphen for
    each maximal run of whitespace (the decomposition [runs] rebuilds the
    input, its runs are non-empty, of one class, and no two neighbours
    share a class) and lower-cases the result; and normalising twice is
    normalising once. *)
Theorem cleanRoute16_normalize_idempotent (r : list N) :
  cleanRoute toLowerCase r = normalize toLowerCase r
  /\ unruns (runs r) = r
  /\ forallb goodRun (runs r) = true
  /\ alternating (runs r) = true
  /\ cleanRoute toLowerCase (cleanRoute toLowerCase r)
     = cleanRoute toLowerCase r.
Proof.
  split; [|split; [|split; [|split]]].
  - unfold cleanRoute, normalize. by rewrite (proj1 (replaceSpaces16_runs r)).
  - apply unruns16_runs.
  - apply runs16_good.
  - apply runs16_alternating.
  - apply cleanRoute16_idem.
Qed.

(** X1.  What [cleanRoute] returns holds no whitespace and is left as it
    is by [toLowerCase]. *)
Theorem cleanRoute16_shape (someRoute : list N) :
  spaceFree (cleanRoute toLowerCase someRoute) = true
  /\ toLowerCase (cleanRoute toLowerCase someRoute)
     = cleanRoute toLowerCase someRoute.
Proof.
  split; [apply spaceFree_cleanRoute16|].
  unfold cleanRoute. apply toLowerCase_idem.
Qed.

(** X2.  The routes that [cleanRoute] leaves unchanged are exactly the
    strings without whitespace that [toLowerCase] leaves unchanged. *)
Theorem cleanRoute16_fixed_points (someRoute : list N) :
  cleanRoute toLowerCase someRoute = someRoute
  <-> spaceFree someRoute = true /\ toLowerCase someRoute = someRoute.
Proof.
  split.
  - intros Hfix. split.
    + rewrite <- Hfix. apply spaceFree_cleanRoute16.
    + rewrite <- Hfix at 1. unfold cleanRoute at 1.
      rewrite toLowerCase_idem. exact Hfix.
  - intros [Hfree Hlower]. unfold cleanRoute.
    by rewrite (replaceSpaces16_spaceFree _ Hfree).
Qed.

End Engine.

(** The lower-casing of the units below 256 has the two properties. *)
Lemma lowerUnit_idem u : lowerUnit (lowerUnit u) = lowerUnit u.
Proof.
  unfold lowerUnit. repeat case_bool_decide; unfold upperLatin1 in *; lia.
Qed.

Lemma not_space_upper u : upperLatin1 u -> isSpace u = false.
Proof.
  intros Hupper. apply bool_decide_eq_false_2. unfold whiteSpaceUnits.
  intros Hin. unfold upperLatin1 in Hupper.
  repeat (apply elem_of_cons in Hin as [Heq|Hin]; [lia|]).
  by apply elem_of_nil in Hin.
Qed.

Lemma not_space_lowered u : upperLatin1 u -> isSpace (u + 32) = false.
Proof.
  intros Hupper. apply bool_decide_eq_false_2. unfold whiteSpaceUnits.
  intros Hin. unfold upperLatin1 in Hupper.
  repeat (apply elem_of_cons in Hin as [Heq|Hin]; [lia|]).
  by apply elem_of_nil in Hin.
Qed.

Lemma isSpace_lowerUnit u : isSpace (lowerUnit u) = isSpace u.
Proof.
  unfold lowerUnit. case_bool_decide as Hupper; [|done].
  by rewrite (not_space_lowered u Hupper), (not_space_upper u Hupper).
Qed.

Lemma lowerLatin1_idem s : lowerLatin1 (lowerLatin1 s) = lowerLatin1 s.
Proof.
  unfold lowerLatin1. induction s as [|u s IH]; [done|].
  cbn [fmap list_fmap] in *. by rewrite lowerUnit_idem, IH.
Qed.

Lemma lowerLatin1_spaceFree s :
  spaceFree s = true -> spaceFree (lowerLatin1 s) = true.
Proof.
  unfold lowerLatin1, spaceFree. induction s as [|u s IH]; [done|].
  cbn [fmap list_fmap forallb]. intros [Hu Hs]%andb_true_iff.
  by rewrite isSpace_lowerUnit, Hu, IH.
Qed.

End Utf16Facts.

(** The normaliser of the content module is the normaliser over UTF-16 on
    the strings of units below 256, for an engine that lower-cases those
    units one by one. *)
Module Utf16Link.

Lemma isSpace_units c : Utf16.isSpace (N_of_ascii c) = JsString.isSpace c.
Proof. JsStringFacts.each_char c; reflexivity. Qed.

Lemma lowerUnit_units c :
  Utf16.lowerUnit (N_of_ascii c) = N_of_ascii (lowerChar c).
Proof. JsStringFacts.each_char c; reflexivity. Qed.

Lemma units_toLowerCase s :
  Utf16.units (toLowerCase s) = Utf16.lowerLatin1 (Utf16.units s).
Proof.
  unfold Utf16.lowerLatin1. induction s as [|c s IH]; [done|].
  cbn [Utf16.units toLowerCase fmap list_fmap] in *.
  by rewrite lowerUnit_units, IH.
Qed.

Lemma units_replaceSpaces s :
  Utf16.units (replaceSpaces s) = Utf16.replaceSpaces (Utf16.units s)
  /\ Utf16.units (skipSpaces s) = Utf16.skipSpaces (Utf16.units s).
Proof.
  induction s as [|c s [IH1 IH2]]; [done|].
  cbn [Utf16.units replaceSpaces skipSpaces Utf16.replaceSpaces
       Utf16.skipSpaces].
  rewrite isSpace_units.
  destruct (isSpace c); cbn [Utf16.units]; by rewrite ?IH1, ?IH2.
Qed.

Lemma units_cleanRoute s :
  Utf16.units (cleanRoute s)
  = Utf16.cleanRoute Utf16.lowerLatin1 (Utf16.units s).
Proof.
  unfold cleanRoute, Utf16.cleanRoute.
  by rewrite units_toLowerCase, (proj1 (units_replaceSpaces s)).
Qed.

End Utf16Link.


(** ** The routing table: properties *)

Module SiteRoutesFacts.
Import SiteRoutes.

Section Engine.

Variable numberToString : Z -> string.

Lemma defaultPages_cons meta rest :
  defaultPages (meta :: rest)
  = if isTrue (meta !! "isDefault") then meta :: defaultPages rest
    else defaultPages rest.
Proof.
  unfold defaultPages. rewrite filter_cons.
  destruct (isTrue (meta !! "isDefault")) eqn:Hdefault.
  - by rewrite decide_True.
  - by rewrite decide_False.
Qed.

(** The visit of the pages, from any value of [defaultFound]: it ends
    without exception exactly when the default pages seen before and the
    default pages to come are at most one. *)
Lemma mapPages_spec pages defaultFound :
  mapPages numberToString pages defaultFound
  = if decide ((if defaultFound then 1 else 0) + length (defaultPages pages)
               <= 1)
    then Returned (elementOf numberToString <$> pages)
    else Thrown (Error "Maximum of 1 default page allowed").
Proof.
  revert defaultFound.
  induction pages as [|meta rest IH]; intros defaultFound.
  - cbn [mapPages defaultPages fmap list_fmap].
    rewrite decide_True; [done | destruct defaultFound; simpl; lia].
  - cbn [mapPages]. unfold pageRoute. rewrite defaultPages_cons.
    destruct (isTrue (meta !! "isDefault")) eqn:Hdefault.
    + destruct defaultFound.
      * rewrite decide_False; [done | simpl; lia].
      * rewrite IH. cbn [length].
        destruct (decide (1 + length (defaultPages rest) <= 1)) as [Hle|Hgt].
        -- rewrite decide_True by lia. cbn [fmap list_fmap].
           unfold elementOf at 2. by rewrite Hdefault.
        -- rewrite decide_False by lia. done.
    + rewrite IH.
      destruct (decide ((if defaultFound then 1 else 0)
                        + length (defaultPages rest) <= 1)); [|done].
      cbn [fmap list_fmap]. unfold elementOf at 2. by rewrite Hdefault.
Qed.

(** X3.  [Routes] throws [Maximum of 1 default page allowed] exactly when
    two or more pages have [isDefault === true].  Otherwise it returns, in
    the order of the pages, one exact route per page that serves the path
    made of ["/"] and the text of the route as the engine writes it, and
    also ["/"], ["home"] and ["/home"] for the default page, followed by
    the catch-all element. *)
Theorem Routes_default_pages (pages : list (gmap string jsval)) :
  Routes numberToString pages
  = if decide (length (defaultPages pages) <= 1)
    then Returned ((elementOf numberToString <$> pages) ++ [catchAll])%list
    else Thrown (Error "Maximum of 1 default page allowed").
Proof.
  unfold Routes. rewrite mapPages_spec. cbn [Nat.add].
  by destruct (decide (length (defaultPages pages) <= 1)).
Qed.

End Engine.

End SiteRoutesFacts.

(** ** Further properties of the content module *)

Section Behaviour.

Context (validateJWT : string -> outcome unit)
        (fm : string -> outcome fm_content)
        (process : string -> outcome string).

Local Abbreviation parseLocal := (parseMDLocal fm process).
Local Abbreviation updateC := (updateContent validateJWT fm process).
Local Abbreviation getByRoute := (getContentByRoute validateJWT).

Implicit Types (c : collection) (st : backing_store).

(** The loop compares normalised routes only. *)
Lemma scanRoutes_spelling c keys q q' :
  cleanRoute q = cleanRoute q' -> scanRoutes c keys q = scanRoutes c keys q'.
Proof.
  intros Hq. induction keys as [|key rest IH]; cbn [scanRoutes]; [done|].
  by rewrite Hq, IH.
Qed.

(** [getContent] always returns, and what it returns is the collection the
    next mutation would start from. *)
Lemma getContent_current st :
  getContent st = ((getContent st).1, Returned (currentCollection st)).
Proof.
  destruct (getContent_result st) as (st' & Hget & Hcur & _).
  rewrite Hget. cbn [fst]. by rewrite Hcur.
Qed.

Lemma getContent_entries st :
  entries (getContent st).1 = entries st
  \/ (entries st !! contentKey = None
      /\ entries (getContent st).1 = <[contentKey := ∅]> (entries st)).
Proof.
  destruct (entries st !! contentKey) as [c|] eqn:Hc.
  - left. by rewrite (getContent_present st c Hc).
  - right. split; [done|]. by rewrite (getContent_absent st Hc).
Qed.

(** The two lookups, written with the result of the loop. *)
Lemma loadContentByRoute_scan route st :
  loadContentByRoute route st
  = ((getContent st).1,
     match scanRoutes (currentCollection st)
             (Object_keys (currentCollection st)) route with
     | Returned (Some entry) => Returned (parsed entry)
     | Returned None =>
         Thrown (Error ("No content found for route: " +:+ route))
     | Thrown e => Thrown e
     end).
Proof.
  unfold loadContentByRoute, bind, lift. rewrite getContent_current.
  by destruct (scanRoutes _ _ _) as [[entry|]|e].
Qed.

Lemma getContentByRoute_scan jwt route st :
  validateJWT jwt = Returned tt ->
  getByRoute jwt route st
  = ((getContent st).1,
     match scanRoutes (currentCollection st)
             (Object_keys (currentCollection st)) route with
     | Returned (Some entry) => Returned entry
     | Returned None =>
         Thrown (Error ("No content found for route: " +:+ dquote +:+ route
                        +:+ dquote))
     | Thrown e => Thrown e
     end).
Proof.
  intros Hjwt. unfold getContentByRoute, bind, lift.
  rewrite Hjwt, getContent_current.
  by destruct (scanRoutes _ _ _) as [[entry|]|e].
Qed.

(** X4.  With a rejected credential, [updateContent], [getContentByRoute]
    and [parseMD] end with the exception of the credential check, and the
    store has received no call and holds what it held. *)
Theorem rejected_credential jwt content prev route st e :
  validateJWT jwt = Thrown e ->
  updateC jwt content prev st = (st, Thrown e)
  /\ getByRoute jwt route st = (st, Thrown e)
  /\ parseMD validateJWT fm process jwt content st = (st, Thrown e).
Proof.
  intros Hjwt.
  unfold updateContent, getContentByRoute, parseMD, bind, lift.
  by rewrite Hjwt.
Qed.

(** X5.  Whatever its arguments, [updateContent] makes no call to the store
    or the single [update] of the content key, and unless it reports
    success the entries of the store are what they were. *)
Theorem updateContent_all_or_nothing jwt content prev st :
  (calls (updateC jwt content prev st).1 = calls st
   \/ calls (updateC jwt content prev st).1
      = (calls st ++ [CallUpdate contentKey])%list)
  /\ ((updateC jwt content prev st).2 <> Returned None ->
      entries (updateC jwt content prev st).1 = entries st).
Proof.
  unfold updateContent, bind, lift, update.
  destruct (validateJWT jwt) as [[]|e]; [|by split; [left|]].
  destruct (parseLocal content) as [parsed_record|e]; [|by split; [left|]].
  destruct (updater _ _ _ _ _) as [pe [next|err]]; cbn [fst snd].
  - split; [by right | done].
  - split; [by right | done].
Qed.

(** X6.  Content whose frontmatter declares a route that is not a string
    (null, a boolean, a number) is not stored: [cleanRoute] raises on it,
    and the call returns the error object with code UNKNOWN_ERROR, whatever
    the expected previous text and the state of the store. *)
Theorem updateContent_route_not_string
    jwt content parsed_record v prev st :
  validateJWT jwt = Returned tt ->
  parseLocal content = Returned parsed_record ->
  attributes parsed_record !! "route" = Some v ->
  (forall s, v <> JStr s) ->
  exists st' err,
    updateC jwt content prev st = (st', Returned (Some (unknownError err)))
    /\ callCleanRoute (Some v) = Thrown err
    /\ code (unknownError err) = "UNKNOWN_ERROR"
    /\ entries st' = entries st.
Proof.
  intros Hjwt Hparse Hroute Hnot.
  exists (logged (CallUpdate contentKey) st).
  rewrite (updateContent_run _ _ _ _ _ _ _ _ Hjwt Hparse), Hroute.
  unfold updater.
  destruct v as [|b|n|s]; try (eexists; by cbn).
  by destruct (Hnot s).
Qed.

(** X7.  Two spellings of a route that normalise to the same string are
    the same question: [loadContentByRoute] and [getContentByRoute] leave
    the same store and return the same value for both, or return for
    neither.  This holds for any stored collection. *)
Theorem lookup_spelling jwt q q' st :
  validateJWT jwt = Returned tt ->
  cleanRoute q = cleanRoute q' ->
  (loadContentByRoute q st).1 = (loadContentByRoute q' st).1
  /\ (forall html,
        (loadContentByRoute q st).2 = Returned html
        <-> (loadContentByRoute q' st).2 = Returned html)
  /\ (getByRoute jwt q st).1 = (getByRoute jwt q' st).1
  /\ (forall entry,
        (getByRoute jwt q st).2 = Returned entry
        <-> (getByRoute jwt q' st).2 = Returned entry).
Proof.
  intros Hjwt Hq.
  rewrite !loadContentByRoute_scan, !(getContentByRoute_scan _ _ _ Hjwt).
  cbn [fst snd].
  rewrite (scanRoutes_spelling _ _ q q' Hq).
  repeat split; try done;
    destruct (scanRoutes _ _ q') as [[found|]|e]; done.
Qed.

(** X8.  [loadContentByRoute] returns the [parsed] field of the record that
    [getContentByRoute] returns for the same route, throws when that one
    throws, and leaves the store in the same state. *)
Theorem loadContentByRoute_getContentByRoute jwt route st :
  validateJWT jwt = Returned tt ->
  (loadContentByRoute route st).1 = (getByRoute jwt route st).1
  /\ (forall html,
        (loadContentByRoute route st).2 = Returned html
        <-> exists entry,
              (getByRoute jwt route st).2 = Returned entry
              /\ parsed entry = html)
  /\ is_thrown (loadContentByRoute route st).2
     = is_thrown (getByRoute jwt route st).2.
Proof.
  intros Hjwt.
  rewrite loadContentByRoute_scan, (getContentByRoute_scan _ _ _ Hjwt).
  cbn [fst snd]. split; [done|].
  destruct (scanRoutes _ _ route) as [[found|]|e]; (split; [|done]).
  - intros html. split.
    + intros [= <-]. by exists found.
    + intros (entry & [= <-] & <-). done.
  - intros html. split; [done | by intros (entry & ? & _)].
  - intros html. split; [done | by intros (entry & ? & _)].
Qed.

(** X9.  The reading operations change the entries of the store in one
    way only: when the store holds no collection, the empty collection is
    put at the content key.  Stored records are never changed by a read,
    and [parseMD] changes nothing. *)
Theorem reads_keep_entries jwt route content st :
  (forall st',
      st' = (getContentMeta st).1 \/ st' = (loadContentByRoute route st).1
      \/ st' = (getByRoute jwt route st).1 ->
      entries st' = entries st
      \/ (entries st !! contentKey = None
          /\ entries st' = <[contentKey := ∅]> (entries st)))
  /\ (parseMD validateJWT fm process jwt content st).1 = st.
Proof.
  split; [|apply parseMD_state].
  intros st' [->|[->| ->]].
  - rewrite getContentMeta_state. apply getContent_entries.
  - rewrite loadContentByRoute_state. apply getContent_entries.
  - destruct (getContentByRoute_state validateJWT jwt route st) as [->| ->];
      [by left | apply getContent_entries].
Qed.

(** The listing written without the detour through the keys. *)
Lemma omap_lookup_keys {A B : Type} (f : A -> B) (o : gmap string A) :
  omap (fun key => f <$> o !! key) (Object_keys o)
  = f <$> (map_to_list o).*2.
Proof.
  unfold Object_keys.
  assert (Hall : Forall (fun kv => o !! kv.1 = Some kv.2) (map_to_list o)).
  { apply Forall_forall. intros [k v] Hin. by apply elem_of_map_to_list. }
  induction Hall as [|[k v] l Hkv _ IH]; [done|].
  cbn [fmap list_fmap omap list_omap fst snd] in *.
  by rewrite Hkv, IH.
Qed.

Lemma getContentMeta_listing st :
  getContentMeta st
  = ((getContent st).1,
     Returned (attributes <$> (map_to_list (currentCollection st)).*2)).
Proof.
  unfold getContentMeta, bind, ret. rewrite getContent_current.
  by rewrite omap_lookup_keys.
Qed.

Lemma listing_elem c (m : gmap string jsval) :
  m ∈ attributes <$> (map_to_list c).*2
  <-> exists key entry, c !! key = Some entry /\ attributes entry = m.
Proof.
  rewrite list_elem_of_fmap. split.
  - intros (entry & -> & Hin). apply list_elem_of_fmap in Hin
      as ([key entry'] & -> & Hin).
    apply elem_of_map_to_list in Hin. by exists key, entry'.
  - intros (key & entry & Hentry & <-). exists entry. split; [done|].
    apply list_elem_of_fmap. exists (key, entry). split; [done|].
    by apply elem_of_map_to_list.
Qed.

(** X10.  [getContentMeta] never throws: it returns one attributes object
    per stored record, and an attributes object is listed exactly when some
    stored record carries it. *)
Theorem getContentMeta_lists_records st :
  exists st' listing,
    getContentMeta st = (st', Returned listing)
    /\ length listing = size (currentCollection st)
    /\ forall m,
         m ∈ listing
         <-> exists key entry,
               currentCollection st !! key = Some entry
               /\ attributes entry = m.
Proof.
  eexists _, _. split; [apply getContentMeta_listing|]. split.
  - by rewrite !length_fmap, length_map_to_list.
  - apply listing_elem.
Qed.

(** X11.  After an update that reported no error, for a route whose
    normalised form is not [__proto__], the metadata listing holds the
    attributes of the new record; it has one item more than before when the
    normalised route was free, and as many as before when a record was
    replaced. *)
Theorem updateContent_getContentMeta
    jwt content prev parsed_record R st st' :
  parseLocal content = Returned parsed_record ->
  attributes parsed_record !! "route" = Some (JStr R) ->
  cleanRoute R <> "__proto__" ->
  updateC jwt content prev st = (st', Returned None) ->
  exists st'' listing,
    getContentMeta st' = (st'', Returned listing)
    /\ attributes parsed_record ∈ listing
    /\ length listing
       = match currentCollection st !! cleanRoute R with
         | Some _ => size (currentCollection st)
         | None => S (size (currentCollection st))
         end.
Proof.
  intros Hparse Hroute Hname Hrun.
  destruct (updateContent_success_current _ _ _ _ _ _ _ _ _ _ Hparse Hroute
              Hrun) as [Hcur _].
  rewrite (assignRecord_own _ _ _ (or_introl Hname)) in Hcur.
  eexists _, _. split; [apply getContentMeta_listing|]. split.
  - apply listing_elem. exists (cleanRoute R), parsed_record.
    split; [|done]. rewrite Hcur. apply lookup_insert_eq.
  - rewrite !length_fmap, length_map_to_list, Hcur, map_size_insert.
    by destruct (currentCollection st !! cleanRoute R).
Qed.

(** X12.  Read, then write.  In a well-formed store, when
    [getContentByRoute] has returned a record for [q], an update whose
    content declares a route normalising like [q] and whose expected
    previous text is the [raw] of that record reports no error and puts
    the new record in its place. *)
Theorem edit_after_read
    jwt q content parsed_record R entry st st1 :
  store_ok st ->
  getByRoute jwt q st = (st1, Returned entry) ->
  parseLocal content = Returned parsed_record ->
  attributes parsed_record !! "route" = Some (JStr R) ->
  cleanRoute R = cleanRoute q ->
  exists st2,
    updateC jwt content (Some (raw entry)) st1 = (st2, Returned None)
    /\ currentCollection st2
       = <[cleanRoute q := parsed_record]> (currentCollection st).
Proof.
  intros Hok Hread Hparse Hroute Hkey.
  assert (Hjwt : validateJWT jwt = Returned tt).
  { revert Hread. unfold getContentByRoute, bind, lift.
    by destruct (validateJWT jwt) as [[]|e]. }
  rewrite (getContentByRoute_ok _ _ _ _ Hjwt Hok) in Hread.
  injection Hread as Hst1 Hfound.
  destruct (currentCollection st !! cleanRoute q) as [found|] eqn:Hat;
    [|done].
  injection Hfound as ->.
  destruct (getContent_result st) as (st' & Hget & Hcur & _).
  rewrite Hget in Hst1. cbn [fst] in Hst1. subst st'.
  eexists. rewrite (updateContent_run _ _ _ _ _ _ _ _ Hjwt Hparse), Hroute.
  unfold updater. cbn [callCleanRoute]. unfold contentHasChanged.
  fold (currentCollection st1). rewrite Hkey, Hcur, Hat, String.eqb_refl.
  cbn [negb].
  rewrite (assignRecord_own _ _ _ (or_intror (mk_is_Some _ _ Hat))).
  split; [reflexivity|].
  unfold currentCollection at 1. cbn [with_entries entries].
  by rewrite lookup_insert_eq.
Qed.

(** The collection after an update with no expected previous text. *)
Lemma updateContent_null_current jwt content parsed_record R st :
  validateJWT jwt = Returned tt ->
  parseLocal content = Returned parsed_record ->
  attributes parsed_record !! "route" = Some (JStr R) ->
  currentCollection (updateC jwt content None st).1
  = assignRecord (cleanRoute R) parsed_record (currentCollection st).
Proof.
  intros Hjwt Hparse Hroute.
  rewrite (updateContent_run _ _ _ _ _ _ _ _ Hjwt Hparse), Hroute.
  unfold updater. cbn [callCleanRoute contentHasChanged fst].
  unfold currentCollection at 1. cbn [with_entries entries].
  by rewrite lookup_insert_eq.
Qed.

(** X13.  Two updates with no expected previous text, one after the
    other: when their routes normalise to the same key, every key holds
    what it holds after the second update alone, as if the first update had
    not been made; when the keys differ, every key holds the same record
    whichever update is made first. *)
Theorem updateContent_order
    jwt content1 content2 parsed1 parsed2 R1 R2 st key :
  validateJWT jwt = Returned tt ->
  parseLocal content1 = Returned parsed1 ->
  attributes parsed1 !! "route" = Some (JStr R1) ->
  parseLocal content2 = Returned parsed2 ->
  attributes parsed2 !! "route" = Some (JStr R2) ->
  currentCollection
    (updateC jwt content2 None (updateC jwt content1 None st).1).1 !! key
  = if decide (cleanRoute R1 = cleanRoute R2)
    then currentCollection (updateC jwt content2 None st).1 !! key
    else currentCollection
           (updateC jwt content1 None (updateC jwt content2 None st).1).1
         !! key.
Proof.
  intros Hjwt Hparse1 Hroute1 Hparse2 Hroute2.
  rewrite !(updateContent_null_current jwt content2 parsed2 R2)
    by assumption.
  rewrite !(updateContent_null_current jwt content1 parsed1 R1)
    by assumption.
  rewrite !(updateContent_null_current jwt content2 parsed2 R2)
    by assumption.
  rewrite assignRecord_assignRecord.
  by destruct (decide (cleanRoute R1 = cleanRoute R2)).
Qed.

(** X14.  [updateContent] never removes a record: a key that holds a
    record before the call holds one after it, whatever the arguments and
    the outcome. *)
Theorem updateContent_keeps_keys jwt content prev st key :
  is_Some (currentCollection st !! key) ->
  is_Some (currentCollection (updateC jwt content prev st).1 !! key).
Proof.
  intros Hkey.
  destruct (updateContent_entries validateJWT fm process jwt content prev st)
    as [Hsame|Hdone].
  - unfold currentCollection at 1. by rewrite Hsame.
  - destruct (updateC jwt content prev st) as [st' res] eqn:Hrun.
    cbn [fst snd] in *. subst res.
    apply updateContent_success in Hrun
      as (parsed_record & R & _ & _ & _ & ->).
    unfold currentCollection at 1. cbn [with_entries entries].
    rewrite lookup_insert_eq. cbn [default from_option id].
    by apply assignRecord_keeps.
Qed.

Lemma getContent_keeps_current st :
  currentCollection (getContent st).1 = currentCollection st.
Proof.
  destruct (getContent_result st) as (st' & Hget & Hcur & _).
  by rewrite Hget.
Qed.

(** Every stored record of a reachable state is the result of parsing its
    own raw text. *)
Lemma reachable_parsed st :
  reachable validateJWT fm process st ->
  forall key entry,
    currentCollection st !! key = Some entry ->
    parseLocal (raw entry) = Returned entry.
Proof.
  induction 1 as [st Habs|jwt content prev st _ IH|jwt route st _ IH
                 |route st _ IH|st _ IH|jwt content st _ IH];
    intros key entry.
  - unfold currentCollection. by rewrite Habs.
  - destruct (updateContent_entries validateJWT fm process jwt content prev st)
      as [Hsame|Hdone].
    + unfold currentCollection at 1. rewrite Hsame. apply IH.
    + destruct (updateC jwt content prev st) as [st' res] eqn:Hrun.
      cbn [fst snd] in *. subst res.
      apply updateContent_success in Hrun
        as (parsed_record & R & _ & Hparse & _ & ->).
      unfold currentCollection at 1. cbn [with_entries entries].
      rewrite lookup_insert_eq. cbn [default from_option id].
      intros [->|Hold]%assignRecord_lookup.
      * by rewrite (parseMDLocal_raw _ _ _ _ Hparse).
      * by apply (IH key).
  - destruct (getContentByRoute_state validateJWT jwt route st) as [->| ->];
      [apply IH | rewrite getContent_keeps_current; apply IH].
  - rewrite loadContentByRoute_state, getContent_keeps_current. apply IH.
  - rewrite getContentMeta_state, getContent_keeps_current. apply IH.
  - rewrite parseMD_state. apply IH.
Qed.

(** X15.  In every state reached from a store without a collection, each
    stored record declares a string route that normalises to its key, the
    key is itself a normalised route without whitespace, and the record is
    what [parseMDLocal] makes of its own [raw] text (so its HTML is the
    rendering of that text). *)
Theorem reachable_records st key entry :
  reachable validateJWT fm process st ->
  currentCollection st !! key = Some entry ->
  exists declared,
    attributes entry !! "route" = Some (JStr declared)
    /\ cleanRoute declared = key
    /\ cleanRoute key = key
    /\ spaceFree key = true
    /\ parseLocal (raw entry) = Returned entry.
Proof.
  intros Hreach Hentry.
  pose proof (reachable_store_ok _ _ _ _ Hreach key entry Hentry) as Hat.
  unfold recordAtKey in Hat.
  destruct (attributes entry !! "route") as [[| | |declared]|]; try done.
  apply String.eqb_eq in Hat. exists declared.
  split; [done|]. split; [done|]. subst key.
  split; [apply JsStringFacts.cleanRoute_idem|].
  split; [apply JsStringFacts.spaceFree_cleanRoute|].
  by apply (reachable_parsed st Hreach (cleanRoute declared)).
Qed.

(** X16.  In every reachable state no two records declare routes that
    normalise to the same string: such records are one record, under one
    key. *)
Theorem reachable_routes_unique st key1 key2 entry1 entry2 s1 s2 :
  reachable validateJWT fm process st ->
  currentCollection st !! key1 = Some entry1 ->
  currentCollection st !! key2 = Some entry2 ->
  attributes entry1 !! "route" = Some (JStr s1) ->
  attributes entry2 !! "route" = Some (JStr s2) ->
  cleanRoute s1 = cleanRoute s2 ->
  key1 = key2 /\ entry1 = entry2.
Proof.
  intros Hreach Hentry1 Hentry2 Hroute1 Hroute2 Hsame.
  pose proof (reachable_store_ok _ _ _ _ Hreach) as Hok.
  pose proof (Hok key1 entry1 Hentry1) as Hat1.
  pose proof (Hok key2 entry2 Hentry2) as Hat2.
  unfold recordAtKey in Hat1, Hat2. rewrite Hroute1 in Hat1.
  rewrite Hroute2 in Hat2.
  apply String.eqb_eq in Hat1. apply String.eqb_eq in Hat2.
  assert (key1 = key2) as -> by congruence.
  split; [done | congruence].
Qed.

(** X17.  What is stored is what is served.  In a well-formed store, after
    an update that reported no error for content declaring a route [R]
    whose normalised form is not [__proto__], [loadContentByRoute] with any
    [q] normalising like [R] returns the HTML that the renderer made of the
    body of that content. *)
Theorem updateContent_loadContentByRoute
    jwt content prev parsed_record R q st st' :
  store_ok st ->
  parseLocal content = Returned parsed_record ->
  attributes parsed_record !! "route" = Some (JStr R) ->
  cleanRoute R <> "__proto__" ->
  updateC jwt content prev st = (st', Returned None) ->
  cleanRoute q = cleanRoute R ->
  exists st'' fmContent html,
    loadContentByRoute q st' = (st'', Returned html)
    /\ entries st'' = entries st'
    /\ fm content = Returned fmContent
    /\ process (fm_body fmContent) = Returned html.
Proof.
  intros Hok Hparse Hroute Hname Hrun Hq.
  assert (Hok' : store_ok st').
  { change st' with (st', @Returned (option error_obj) None).1.
    rewrite <- Hrun. by apply updateContent_store_ok. }
  destruct (updateContent_success_current _ _ _ _ _ _ _ _ _ _ Hparse Hroute
              Hrun) as [Hcur Hstored].
  rewrite (assignRecord_own _ _ _ (or_introl Hname)) in Hcur.
  exists (logged (CallGet contentKey) st').
  revert Hparse. unfold parseMDLocal.
  destruct (fm content) as [fmContent|e]; [|done].
  destruct (process (fm_body fmContent)) as [html|e] eqn:Hrender; [|done].
  intros [= <-]. exists fmContent, html.
  rewrite (loadContentByRoute_ok _ _ Hok').
  rewrite (getContent_present _ _ Hstored). cbn [fst logged entries].
  rewrite Hq, Hcur, lookup_insert_eq. cbn [parsed]. by repeat split.
Qed.

(** X18.  In every reachable state a lookup is decided by the normalised
    route alone: both lookups return the record stored at that key (its
    HTML, for [loadContentByRoute]), and when the key holds no record they
    throw the [No content found] error; no other exception arises. *)
Theorem reachable_lookup jwt route st :
  reachable validateJWT fm process st ->
  validateJWT jwt = Returned tt ->
  match currentCollection st !! cleanRoute route with
  | Some entry =>
      (getByRoute jwt route st).2 = Returned entry
      /\ (loadContentByRoute route st).2 = Returned (parsed entry)
  | None =>
      (getByRoute jwt route st).2
      = Thrown (Error ("No content found for route: " +:+ dquote +:+ route
                       +:+ dquote))
      /\ (loadContentByRoute route st).2
         = Thrown (Error ("No content found for route: " +:+ route))
  end.
Proof.
  intros Hreach Hjwt.
  pose proof (reachable_store_ok _ _ _ _ Hreach) as Hok.
  rewrite (getContentByRoute_ok _ _ _ _ Hjwt Hok).
  rewrite (loadContentByRoute_ok _ _ Hok).
  by destruct (currentCollection st !! cleanRoute route).
Qed.

End Behaviour.

(** ** The further properties at concrete documents *)

Module MoreRuns.
Import Sample Runs.

Abbreviation about := (pageRecord "About" "# About").

(** The store after the first page has been saved. *)
Lemma firstSave_reachable :
  reachable validateJWT fm process
    (update_content token (page "Hello World" "# Hi") None emptyStore).1.
Proof. apply reach_updateContent, reach_fresh. reflexivity. Defined.

Example sample_typed_parse :
  parseMDLocal SampleYaml.fm process (page "2019" "# Year")
  = Returned SampleYaml.yearRecord.
Proof. run. Qed.

Example sample_routes :
  SiteRoutes.Routes pretty SampleYaml.pages
  = Returned
      [ SiteRoutes.appliedRoute (Some (JStr "intro"))
          ["/intro"; "/"; "home"; "/home"]
          {["route" := JStr "intro"; "isDefault" := JBool true]};
        SiteRoutes.appliedRoute (Some (JStr "api")) ["/api"]
          {["route" := JStr "api"]};
        SiteRoutes.catchAll ].
Proof. run. Qed.

(** C5 at a route with a run of two spaces from beyond U+00FF (EM SPACE,
    IDEOGRAPHIC SPACE), for the engine that lower-cases the units below
    256. *)
Lemma cleanRoute16_normalize_idempotent_witness :
  Utf16.cleanRoute Utf16.lowerLatin1 [72; 105; 8195; 12288; 84; 79]%N
  = Utf16.normalize Utf16.lowerLatin1 [72; 105; 8195; 12288; 84; 79]%N
  /\ Utf16.unruns (Utf16.runs [72; 105; 8195; 12288; 84; 79]%N)
     = [72; 105; 8195; 12288; 84; 79]%N
  /\ forallb Utf16.goodRun (Utf16.runs [72; 105; 8195; 12288; 84; 79]%N)
     = true
  /\ Utf16.alternating (Utf16.runs [72; 105; 8195; 12288; 84; 79]%N) = true
  /\ Utf16.cleanRoute Utf16.lowerLatin1
       (Utf16.cleanRoute Utf16.lowerLatin1 [72; 105; 8195; 12288; 84; 79]%N)
     = Utf16.cleanRoute Utf16.lowerLatin1 [72; 105; 8195; 12288; 84; 79]%N.
Proof.
  exact (Utf16Facts.cleanRoute16_normalize_idempotent Utf16.lowerLatin1
           Utf16Facts.lowerLatin1_idem Utf16Facts.lowerLatin1_spaceFree
           [72; 105; 8195; 12288; 84; 79]%N).
Defined.

Example sample_cleanRoute16 :
  Utf16.cleanRoute Utf16.lowerLatin1 [72; 105; 8195; 12288; 84; 79]%N
  = [104; 105; 45; 116; 111]%N.
Proof. run. Qed.

(** X1 at the same route. *)
Lemma cleanRoute16_shape_witness :
  Utf16.spaceFree
    (Utf16.cleanRoute Utf16.lowerLatin1 [72; 105; 8195; 12288; 84; 79]%N)
  = true
  /\ Utf16.lowerLatin1
       (Utf16.cleanRoute Utf16.lowerLatin1 [72; 105; 8195; 12288; 84; 79]%N)
     = Utf16.cleanRoute Utf16.lowerLatin1 [72; 105; 8195; 12288; 84; 79]%N.
Proof.
  exact (Utf16Facts.cleanRoute16_shape Utf16.lowerLatin1
           Utf16Facts.lowerLatin1_idem Utf16Facts.lowerLatin1_spaceFree
           [72; 105; 8195; 12288; 84; 79]%N).
Defined.

(** X2 at a route that is already normalised. *)
Lemma cleanRoute16_fixed_points_witness :
  Utf16.cleanRoute Utf16.lowerLatin1 [104; 105; 45; 116; 111]%N
  = [104; 105; 45; 116; 111]%N
  <-> Utf16.spaceFree [104; 105; 45; 116; 111]%N = true
      /\ Utf16.lowerLatin1 [104; 105; 45; 116; 111]%N
         = [104; 105; 45; 116; 111]%N.
Proof.
  exact (Utf16Facts.cleanRoute16_fixed_points Utf16.lowerLatin1
           Utf16Facts.lowerLatin1_idem Utf16Facts.lowerLatin1_spaceFree
           [104; 105; 45; 116; 111]%N).
Defined.

(** X4 at a wrong token. *)
Lemma rejected_credential_witness :
  update_content "guest" (page "About" "# About") None oneStore
  = (oneStore, Thrown (Error "invalid token"))
  /\ getContentByRoute validateJWT "guest" "about" oneStore
     = (oneStore, Thrown (Error "invalid token"))
  /\ parseMD validateJWT fm process "guest" (page "About" "# About") oneStore
     = (oneStore, Thrown (Error "invalid token")).
Proof.
  apply (rejected_credential validateJWT fm process "guest"
           (page "About" "# About") None "about" oneStore
           (Error "invalid token")).
  run.
Defined.

(** X6 at a page whose route is the number 2019. *)
Lemma updateContent_route_not_string_witness :
  exists st' err,
    updateContent validateJWT SampleYaml.fm process token
      (page "2019" "# Year") None oneStore
    = (st', Returned (Some (unknownError err)))
    /\ callCleanRoute (Some (JNum 2019)) = Thrown err
    /\ code (unknownError err) = "UNKNOWN_ERROR"
    /\ entries st' = entries oneStore.
Proof.
  apply (updateContent_route_not_string validateJWT SampleYaml.fm process
           token (page "2019" "# Year") SampleYaml.yearRecord (JNum 2019)
           None oneStore);
    [run | run | run | discriminate].
Defined.

(** X7 at the two spellings of the stored route. *)
Lemma lookup_spelling_witness :
  (loadContentByRoute "Hello World" oneStore).1
  = (loadContentByRoute "hello-world" oneStore).1
  /\ (forall html,
        (loadContentByRoute "Hello World" oneStore).2 = Returned html
        <-> (loadContentByRoute "hello-world" oneStore).2 = Returned html)
  /\ (getContentByRoute validateJWT token "Hello World" oneStore).1
     = (getContentByRoute validateJWT token "hello-world" oneStore).1
  /\ (forall entry,
        (getContentByRoute validateJWT token "Hello World" oneStore).2
        = Returned entry
        <-> (getContentByRoute validateJWT token "hello-world" oneStore).2
            = Returned entry).
Proof.
  apply (lookup_spelling validateJWT token "Hello World" "hello-world"
           oneStore); run.
Defined.

(** X8 at the stored page. *)
Lemma loadContentByRoute_getContentByRoute_witness :
  (loadContentByRoute "hello world" oneStore).1
  = (getContentByRoute validateJWT token "hello world" oneStore).1
  /\ (forall html,
        (loadContentByRoute "hello world" oneStore).2 = Returned html
        <-> exists entry,
              (getContentByRoute validateJWT token "hello world" oneStore).2
              = Returned entry
              /\ parsed entry = html)
  /\ is_thrown (loadContentByRoute "hello world" oneStore).2
     = is_thrown (getContentByRoute validateJWT token "hello world" oneStore).2.
Proof.
  apply (loadContentByRoute_getContentByRoute validateJWT token "hello world"
           oneStore).
  run.
Defined.

(** X9 at the listing of a store without a collection. *)
Lemma reads_keep_entries_witness :
  entries (getContentMeta emptyStore).1 = entries emptyStore
  \/ (entries emptyStore !! contentKey = None
      /\ entries (getContentMeta emptyStore).1
         = <[contentKey := ∅]> (entries emptyStore)).
Proof.
  apply (proj1 (reads_keep_entries validateJWT fm process token "about"
                  (page "About" "# About") emptyStore)).
  left. reflexivity.
Defined.

(** X11 at a second page saved next to the first. *)
Lemma updateContent_getContentMeta_witness :
  exists st'' listing,
    getContentMeta (update_content token (page "About" "# About") None
                      oneStore).1
    = (st'', Returned listing)
    /\ attributes about ∈ listing
    /\ length listing
       = match currentCollection oneStore !! cleanRoute "About" with
         | Some _ => size (currentCollection oneStore)
         | None => S (size (currentCollection oneStore))
         end.
Proof.
  apply (updateContent_getContentMeta validateJWT fm process
           token (page "About" "# About") None about "About" oneStore);
    [run | run | vm_compute; discriminate | run].
Defined.

(** X12 at an edit of the stored page, read first. *)
Lemma edit_after_read_witness :
  exists st2,
    update_content token (page "hello world" "# Edited") (Some (raw hello))
      (getContentByRoute validateJWT token "Hello World" oneStore).1
    = (st2, Returned None)
    /\ currentCollection st2
       = <[cleanRoute "Hello World" := edited]> (currentCollection oneStore).
Proof.
  apply (edit_after_read validateJWT fm process
           token "Hello World" (page "hello world" "# Edited") edited
           "hello world" hello oneStore);
    [exact oneStore_ok | run | run | run | run].
Defined.

(** X13 at two pages with different routes. *)
Lemma updateContent_order_witness :
  currentCollection
    (update_content token (page "About" "# About") None
       (update_content token (page "hello world" "# Edited") None
          oneStore).1).1 !! "about"
  = if decide (cleanRoute "hello world" = cleanRoute "About")
    then currentCollection
           (update_content token (page "About" "# About") None oneStore).1
         !! "about"
    else currentCollection
           (update_content token (page "hello world" "# Edited") None
              (update_content token (page "About" "# About") None
                 oneStore).1).1 !! "about".
Proof.
  apply (updateContent_order validateJWT fm process
           token (page "hello world" "# Edited") (page "About" "# About")
           edited about "hello world" "About" oneStore "about"); run.
Defined.

(** X14 at a rejected edit of another page. *)
Lemma updateContent_keeps_keys_witness :
  is_Some (currentCollection
             (update_content token (page "About" "# About") (Some "draft")
                oneStore).1 !! "hello-world").
Proof.
  apply (updateContent_keeps_keys validateJWT fm process
           token (page "About" "# About") (Some "draft") oneStore
           "hello-world").
  exists hello. run.
Defined.

(** X15 at the store after the first save. *)
Lemma reachable_records_witness :
  exists declared,
    attributes hello !! "route" = Some (JStr declared)
    /\ cleanRoute declared = "hello-world"
    /\ cleanRoute "hello-world" = "hello-world"
    /\ spaceFree "hello-world" = true
    /\ parseMDLocal fm process (raw hello) = Returned hello.
Proof.
  apply (reachable_records validateJWT fm process
           (update_content token (page "Hello World" "# Hi") None
              emptyStore).1 "hello-world" hello);
    [exact firstSave_reachable | run].
Defined.

(** X16 at the store after the first save. *)
Lemma reachable_routes_unique_witness :
  "hello-world" = "hello-world" /\ hello = hello.
Proof.
  apply (reachable_routes_unique validateJWT fm process
           (update_content token (page "Hello World" "# Hi") None
              emptyStore).1 "hello-world" "hello-world" hello hello
           "Hello World" "Hello World");
    [exact firstSave_reachable | run | run | run | run | run].
Defined.

(** X17 at an edit, served under the other spelling. *)
Lemma updateContent_loadContentByRoute_witness :
  exists st'' fmContent html,
    loadContentByRoute "Hello World"
      (update_content token (page "hello world" "# Edited") None oneStore).1
    = (st'', Returned html)
    /\ entries st''
       = entries (update_content token (page "hello world" "# Edited") None
                    oneStore).1
    /\ fm (page "hello world" "# Edited") = Returned fmContent
    /\ process (fm_body fmContent) = Returned html.
Proof.
  apply (updateContent_loadContentByRoute validateJWT fm process
           token (page "hello world" "# Edited") None edited
           "hello world" "Hello World" oneStore);
    [exact oneStore_ok | run | run | vm_compute; discriminate | run | run].
Defined.

(** X18 at the store after the first save, for a stored and for an unknown
    route. *)
Lemma reachable_lookup_witness :
  match currentCollection
          (update_content token (page "Hello World" "# Hi") None
             emptyStore).1 !! cleanRoute "HELLO WORLD" with
  | Some entry =>
      (getContentByRoute validateJWT token "HELLO WORLD"
         (update_content token (page "Hello World" "# Hi") None
            emptyStore).1).2 = Returned entry
      /\ (loadContentByRoute "HELLO WORLD"
            (update_content token (page "Hello World" "# Hi") None
               emptyStore).1).2 = Returned (parsed entry)
  | None =>
      (getContentByRoute validateJWT token "HELLO WORLD"
         (update_content token (page "Hello World" "# Hi") None
            emptyStore).1).2
      = Thrown (Error ("No content found for route: " +:+ dquote
                       +:+ "HELLO WORLD" +:+ dquote))
      /\ (loadContentByRoute "HELLO WORLD"
            (update_content token (page "Hello World" "# Hi") None
               emptyStore).1).2
         = Thrown (Error ("No content found for route: " +:+ "HELLO WORLD"))
  end.
Proof.
  apply (reachable_lookup validateJWT fm process token "HELLO WORLD"
           (update_content token (page "Hello World" "# Hi") None
              emptyStore).1);
    [exact firstSave_reachable | run].
Defined.

End MoreRuns.
